(** * update_chromedriver: the driver provisioner, embedded and verified

    A shallow embedding of [update_chromedriver.py]:
    - [get_platform_name]: host OS identifier to manifest platform tag;
    - [fetch_closest_chromedriver_url]: manifest GET and first-match scan;
    - [download_and_update_chromedriver]: archive GET, extraction, walk of the
      extracted tree, removal of the archive.

    Python values that come out of [response.json()] are modelled by [json],
    exceptions by [exn], and the effects of the script (printing, the file
    system, HTTP) by a state-and-error monad [M] over a [world].  Python text
    is modelled by [string] (UTF-8 bytes): prefix and substring tests on code
    points and on their UTF-8 encoding agree. *)

From Stdlib Require Import ZArith Bool Ascii String List Lia.
From stdpp Require Import base option list strings gmap.

Set Warnings "-register-all".

Local Open Scope string_scope.
Local Open Scope Z_scope.

(* ===================================================================== *)
(** ** Python strings *)
(* ===================================================================== *)

(** [s.startswith(p)]. *)
Fixpoint startswith (s p : string) : bool :=
  match p with
  | EmptyString => true
  | String c p' =>
      match s with
      | EmptyString => false
      | String d s' => Ascii.eqb c d && startswith s' p'
      end
  end.

(** [s.endswith(p)] for a one-character [p]. *)
Fixpoint endswith_char (s : string) (c : ascii) : bool :=
  match s with
  | EmptyString => false
  | String d EmptyString => Ascii.eqb c d
  | String _ s' => endswith_char s' c
  end.

(** [p in s] for two strings: [p] occurs in [s] as a contiguous run. *)
Fixpoint str_contains (s p : string) : bool :=
  startswith s p ||
  match s with
  | EmptyString => false
  | String _ s' => str_contains s' p
  end.

(** [s.split(sep)] for a one-character separator: the pieces between the
    separators, empty pieces included. *)
Fixpoint split_on (sep : ascii) (s : string) : list string :=
  match s with
  | EmptyString => [EmptyString]
  | String c s' =>
      if Ascii.eqb c sep then EmptyString :: split_on sep s'
      else match split_on sep s' with
           | [] => [String c EmptyString]
           | piece :: pieces => String c piece :: pieces
           end
  end.

(** [os.path.join(a, b)] of [posixpath]: an absolute [b] replaces [a]; an
    empty [a] or one that ends with the separator takes [b] as it is;
    otherwise the separator goes in between. *)
Definition path_join (a b : string) : string :=
  if startswith b "/" then b
  else if String.eqb a "" || endswith_char a "/" then a +:+ b
  else a +:+ "/" +:+ b.

(** [c in s] for a one-character [c]. *)
Fixpoint has_char (c : ascii) (s : string) : bool :=
  match s with
  | EmptyString => false
  | String d s' => Ascii.eqb c d || has_char c s'
  end.

(** [p[:p.rfind('/') + 1]]: the text up to the last separator, with it. *)
Fixpoint head_of (p : string) : string :=
  match p with
  | EmptyString => EmptyString
  | String c p' =>
      if Ascii.eqb c "/" || has_char "/" p' then String c (head_of p')
      else EmptyString
  end.

(** [s.rstrip('/')]. *)
Fixpoint rstrip_sep (s : string) : string :=
  match s with
  | EmptyString => EmptyString
  | String c s' =>
      match rstrip_sep s' with
      | EmptyString => if Ascii.eqb c "/" then EmptyString else String c EmptyString
      | rest => String c rest
      end
  end.

(** [os.path.dirname(p)] of [posixpath]: the head of the path, without the
    separators that end it unless it is made of separators only. *)
Definition dirname (p : string) : string :=
  match rstrip_sep (head_of p) with
  | EmptyString => head_of p
  | stripped => stripped
  end.

(* ===================================================================== *)
(** ** Exceptions and results *)
(* ===================================================================== *)

(** The subclasses of [requests.RequestException] the script can meet. *)
Inductive request_error :=
  | ConnectionError
  | Timeout
  | TooManyRedirects
  | InvalidURL
  | HTTPError (status : Z)
  | JSONDecodeError.

(** The exceptions of the script, all subclasses of [Exception]. *)
Inductive exn :=
  | RequestException (e : request_error)
  | RuntimeError (system : string)
  | KeyError (key : string)
  | TypeError
  | AttributeError
  | IndexError
  | BadZipFile
  | OSError
  | ValueError.

Inductive result (A : Type) :=
  | Ok (a : A)
  | Raise (e : exn).
Arguments Ok {A} a.
Arguments Raise {A} e.

(* ===================================================================== *)
(** ** Platform resolution *)
(* ===================================================================== *)

(** [get_platform_name], as a function of what [platform.system()] returns. *)
Definition get_platform_name (system : string) : result string :=
  if String.eqb system "Windows" then Ok "win32"
  else if String.eqb system "Darwin" then Ok "mac-arm64"
  else if String.eqb system "Linux" then Ok "linux64"
  else Raise (RuntimeError system).

(* ===================================================================== *)
(** ** Values decoded from JSON *)
(* ===================================================================== *)

(** What [response.json()] returns: [None], [bool], [int], [float], [str],
    [list] and [dict] with string keys.  A dict is kept as its items, in
    order; a key is looked up at its first item.  Of a float the script can
    observe only whether it is zero. *)
Inductive json :=
  | JNull
  | JBool (b : bool)
  | JInt (z : Z)
  | JFloat (is_zero : bool)
  | JStr (s : string)
  | JList (items : list json)
  | JDict (items : list (string * json)).

(** [dict.get]-like search of the items of a dict. *)
Fixpoint assoc (key : string) (items : list (string * json)) : option json :=
  match items with
  | [] => None
  | (k, v) :: rest => if String.eqb k key then Some v else assoc key rest
  end.

(** [value[key]] with a string key: only a dict can be indexed by a string,
    and a missing key is a [KeyError]. *)
Definition subscript (value : json) (key : string) : result json :=
  match value with
  | JDict items =>
      match assoc key items with
      | Some v => Ok v
      | None => Raise (KeyError key)
      end
  | _ => Raise TypeError
  end.

(** The characters of a string, each as a one-character string. *)
Fixpoint chars (s : string) : list json :=
  match s with
  | EmptyString => []
  | String c s' => JStr (String c EmptyString) :: chars s'
  end.

(** [iter(value)]: what a [for] loop over the value visits. *)
Definition py_iter (value : json) : result (list json) :=
  match value with
  | JList items => Ok items
  | JDict items => Ok (map (fun kv => JStr (fst kv)) items)
  | JStr s => Ok (chars s)
  | _ => Raise TypeError
  end.

Definition is_str (s : string) (value : json) : bool :=
  match value with
  | JStr t => String.eqb s t
  | _ => false
  end.

(** [name in value] for a string [name]: substring of a str, element of a
    list, key of a dict. *)
Definition py_in (name : string) (value : json) : result bool :=
  match value with
  | JStr s => Ok (str_contains s name)
  | JList items => Ok (existsb (is_str name) items)
  | JDict items => Ok (existsb (fun kv => String.eqb name (fst kv)) items)
  | _ => Raise TypeError
  end.

(** Truth value of a Python object, as [if not driver_url] tests it. *)
Definition truthy (value : json) : bool :=
  match value with
  | JNull => false
  | JBool b => b
  | JInt z => negb (z =? 0)
  | JFloat is_zero => negb is_zero
  | JStr s => negb (String.eqb s "")
  | JList items => match items with [] => false | _ => true end
  | JDict items => match items with [] => false | _ => true end
  end.

(* ===================================================================== *)
(** ** Files, archives and the file system *)
(* ===================================================================== *)

(** A member of a zip archive as [extractall] visits it: its name, its data
    and whether the stored data passes the CRC check on reading. *)
Record member := Member {
  filename : string;
  payload : string;
  crc_ok : bool
}.

(** Bytes, read the way the script reads them: a body that [response.json()]
    decodes, a zip archive that [zipfile.ZipFile] opens, or neither. *)
Inductive blob :=
  | Raw (bytes : string)
  | JsonDoc (value : json)
  | ZipArchive (members : list member).

(** A file or a directory with its entries, in the order they were made.
    That is not the order the file system lists them in, see [scandir]. *)
Inductive node :=
  | File (data : blob)
  | Dir (entries : list (string * node)).

Record response := Response {
  status_code : Z;
  content : blob
}.

Inductive get_outcome :=
  | GetRaises (e : request_error)
  | GetReturns (r : response).

(** What the script prints, one constructor per [print] of the source. *)
Inductive report :=
  | ScriptStart                            (* 脚本开始执行 *)
  | PlatformName (tag : string)            (* 平台名称: ... *)
  | FoundUrl (url : json)                  (* 找到匹配的 ChromeDriver 下载链接: ... *)
  | NotFound                               (* 未找到匹配的 ChromeDriver。 *)
  | RequestErrorReport (e : exn)           (* 请求错误: ... *)
  | ErrorReport (e : exn)                  (* 发生错误: ... *)
  | NoDriverFor (version_prefix : string)  (* 未找到适合 Chrome 版本前缀 ... *)
  | Downloading (version : string)         (* 下载 ChromeDriver ... *)
  | Downloaded (version : string)          (* ChromeDriver ... 下载成功！ *)
  | Extracting (version : string)          (* 解压 ChromeDriver ... *)
  | DriverPath (path : string)             (* ChromeDriver 文件路径: ... *)
  | DriverFileMissing                      (* 未能找到解压后的 chromedriver 文件。 *)
  | DownloadErrorReport (e : exn)          (* 下载错误: ... *)
  | BadZipReport.                          (* 解压错误: 文件格式不正确或损坏 *)

(** The world the script runs in.  [system] is what [platform.system()]
    returns, [http] what a GET of a URL gives, [script_dir] the directory of
    the script ([os.path.dirname(os.path.abspath(__file__))]), which exists,
    and [out] is the text printed so far, last line first.

    [fs] gives, for a path as the script writes it, what that path leads to
    on disk: a file, a directory with the whole tree below it, or nothing.
    A file can be made where its directory is: [open] makes no directory.
    There are no symbolic links.

    [scandir] is the order in which the file system lists a directory, which
    is not the order the entries were made in: [scandir dir name] is the rank
    of the entry [name] of the directory at [dir], and a directory is listed
    by increasing rank (entries of one rank as they are stored).

    Paths are POSIX paths, joined as [posixpath] joins them.  The host is
    taken to accept the names and to have room for the files, and [print] is
    taken not to fail. *)
Record world := World {
  system : string;
  http : string -> get_outcome;
  script_dir : string;
  scandir : string -> string -> nat;
  fs : gmap string node;
  out : list report
}.

Definition set_fs (f : gmap string node) (w : world) : world :=
  World (system w) (http w) (script_dir w) (scandir w) f (out w).

Definition add_out (r : report) (w : world) : world :=
  World (system w) (http w) (script_dir w) (scandir w) (fs w) (r :: out w).

Definition is_directory (target : option node) : bool :=
  match target with
  | Some (Dir _) => true
  | _ => false
  end.

(* ===================================================================== *)
(** ** The monad of the script: state and exceptions *)
(* ===================================================================== *)

Definition M (A : Type) : Type := world -> result A * world.

Definition ret {A} (a : A) : M A := fun w => (Ok a, w).

Definition bind {A B} (m : M A) (k : A -> M B) : M B :=
  fun w =>
    match m w with
    | (Ok a, w') => k a w'
    | (Raise e, w') => (Raise e, w')
    end.

Definition raise {A} (e : exn) : M A := fun w => (Raise e, w).

(** A pure computation that may raise. *)
Definition lift {A} (r : result A) : M A := fun w => (r, w).

(** [try: body  except Exception as e: handler e]. *)
Definition try_except {A} (body : M A) (handler : exn -> M A) : M A :=
  fun w =>
    match body w with
    | (Ok a, w') => (Ok a, w')
    | (Raise e, w') => handler e w'
    end.

Declare Scope script_scope.
Delimit Scope script_scope with script.
Notation "x <~ m ;; k" := (bind m (fun x => k))
  (at level 100, m at next level, right associativity) : script_scope.
Notation "m ;;; k" := (bind m (fun _ => k))
  (at level 100, right associativity) : script_scope.
Local Open Scope script_scope.

Definition print (r : report) : M unit := fun w => (Ok tt, add_out r w).

(** Read a field of the world. *)
Definition ask {A} (field : world -> A) : M A := fun w => (Ok (field w), w).

(* ===================================================================== *)
(** ** The library calls of the script *)
(* ===================================================================== *)

(** [requests.get(url)].  A URL that is not a string is turned into text that
    names no HTTP resource, which [requests] refuses. *)
Definition requests_get (url : json) : M response :=
  fun w =>
    match url with
    | JStr u =>
        match http w u with
        | GetRaises e => (Raise (RequestException e), w)
        | GetReturns r => (Ok r, w)
        end
    | _ => (Raise (RequestException InvalidURL), w)
    end.

(** [response.raise_for_status()]: an [HTTPError] for the client and server
    error statuses, 400 to 599. *)
Definition raise_for_status (r : response) : M unit :=
  if (400 <=? status_code r) && (status_code r <? 600)
  then raise (RequestException (HTTPError (status_code r)))
  else ret tt.

(** [response.json()]; the decoding error of [requests] is a
    [RequestException]. *)
Definition response_json (r : response) : M json :=
  match content r with
  | JsonDoc value => ret value
  | _ => raise (RequestException JSONDecodeError)
  end.

(** The receiver of a [str] method. *)
Definition as_str (value : json) : result string :=
  match value with
  | JStr s => Ok s
  | _ => Raise AttributeError
  end.

(** How [open(path, 'wb')] fails, when it does: a [ValueError] for a path
    with a null character; a [FileNotFoundError] (or [NotADirectoryError])
    when the directory the file goes in is not there, [open] makes no
    directory; an [IsADirectoryError] when a directory is at the path.  The
    last two are [OSError]s. *)
Definition open_error (w : world) (path : string) : option exn :=
  if has_char "000" path then Some ValueError
  else if negb (String.eqb (dirname path) (script_dir w)
                || is_directory (fs w !! dirname path)) then Some OSError
  else if is_directory (fs w !! path) then Some OSError
  else None.

(** [with open(path, 'wb') as f: f.write(data)]. *)
Definition write_file (path : string) (data : blob) : M unit :=
  fun w =>
    match open_error w path with
    | Some e => (Raise e, w)
    | None => (Ok tt, set_fs (<[path := File data]> (fs w)) w)
    end.

(** [os.remove(path)]. *)
Definition os_remove (path : string) : M unit :=
  fun w =>
    match fs w !! path with
    | Some (File _) => (Ok tt, set_fs (delete path (fs w)) w)
    | _ => (Raise OSError, w)
    end.

(** *** zipfile.ZipFile.extractall *)

(** The parts of a member name that [_extract_member] keeps: it splits at the
    separator and drops empty parts, [.] and [..]. *)
Definition valid_part (x : string) : bool :=
  negb (String.eqb x "") && negb (String.eqb x ".") && negb (String.eqb x "..").

Definition arcname (name : string) : list string :=
  List.filter valid_part (split_on "/" name).

(** [ZipInfo.is_dir]. *)
Definition is_dir (m : member) : bool := endswith_char (filename m) "/".

Inductive leaf :=
  | LeafDir
  | LeafFile (data : blob).

(** Apply [f] to the entry called [name] of a directory; a new entry is
    stored last.  Where the file system lists it is up to [scandir]. *)
Fixpoint alter_entry (name : string) (f : option node -> option node)
    (entries : list (string * node)) : option (list (string * node)) :=
  match entries with
  | [] =>
      match f None with
      | Some n => Some [(name, n)]
      | None => None
      end
  | (k, n) :: rest =>
      if String.eqb k name then
        match f (Some n) with
        | Some n' => Some ((k, n') :: rest)
        | None => None
        end
      else
        match alter_entry name f rest with
        | Some rest' => Some ((k, n) :: rest')
        | None => None
        end
  end.

(** Put a leaf at [parts] below [target] ([None]: nothing is there yet),
    making the directories on the way as [os.makedirs] does.  [None] is
    returned when a file is where a directory is needed, or a directory where
    the file is to be written: the [OSError]s of [mkdir] and [open]. *)
Fixpoint put (parts : list string) (l : leaf) (target : option node) : option node :=
  match parts with
  | [] =>
      match l, target with
      | LeafDir, None => Some (Dir [])
      | LeafDir, Some (Dir entries) => Some (Dir entries)
      | LeafDir, Some (File _) => None
      | LeafFile data, Some (Dir _) => None
      | LeafFile data, _ => Some (File data)
      end
  | name :: parts' =>
      match target with
      | None =>
          match put parts' l None with
          | Some n => Some (Dir [(name, n)])
          | None => None
          end
      | Some (Dir entries) =>
          match alter_entry name (put parts' l) entries with
          | Some entries' => Some (Dir entries')
          | None => None
          end
      | Some (File _) => None
      end
  end.

(** [ZipFile._extract_member(m, path)], as CPython 3.11 has it: the target
    is [path] joined with the cleaned name; the directories above it are
    made; a directory member is made if it is not there; a file member is
    copied to the target, and a CRC error surfaces once the data is read,
    when the file is written.  [is_dir] reads the last character of the
    name, which an empty name does not have. *)
Definition extract_member (path : string) (m : member) : M unit :=
  fun w =>
    let parts := arcname (filename m) in
    if String.eqb (filename m) "" then (Raise IndexError, w)
    else if is_dir m then
      match put parts LeafDir (fs w !! path) with
      | Some n => (Ok tt, set_fs (<[path := n]> (fs w)) w)
      | None => (Raise OSError, w)
      end
    else
      match put parts (LeafFile (Raw (payload m))) (fs w !! path) with
      | Some n =>
          (if crc_ok m then Ok tt else Raise BadZipFile,
           set_fs (<[path := n]> (fs w)) w)
      | None => (Raise OSError, w)
      end.

Fixpoint extract_members (path : string) (members : list member) : M unit :=
  match members with
  | [] => ret tt
  | m :: rest => extract_member path m ;;; extract_members path rest
  end.

(** [with zipfile.ZipFile(zip_path, 'r') as zip_ref:
       zip_ref.extractall(extract_dir)]. *)
Definition extractall (zip_path extract_dir : string) : M unit :=
  fun w =>
    match fs w !! zip_path with
    | Some (File (ZipArchive members)) => extract_members extract_dir members w
    | Some (File _) => (Raise BadZipFile, w)
    | _ => (Raise OSError, w)
    end.

(** *** os.walk *)

Definition dir_names (entries : list (string * node)) : list string :=
  flat_map (fun e => match snd e with Dir _ => [fst e] | File _ => [] end) entries.

Definition file_names (entries : list (string * node)) : list string :=
  flat_map (fun e => match snd e with File _ => [fst e] | Dir _ => [] end) entries.

(** Stable sorting by rank. *)
Fixpoint insert_ranked {A} (rank : A -> nat) (x : A) (l : list A) : list A :=
  match l with
  | [] => [x]
  | y :: l' =>
      if (rank x <=? rank y)%nat then x :: l else y :: insert_ranked rank x l'
  end.

Definition sort_ranked {A} (rank : A -> nat) (l : list A) : list A :=
  fold_right (insert_ranked rank) [] l.

(** The tree at [top] as the file system lists it: the entries of every
    directory in the order [os.scandir] gives them for its path. *)
Fixpoint scanned (order : string -> string -> nat) (top : string) (n : node) : node :=
  match n with
  | File data => File data
  | Dir entries =>
      Dir (sort_ranked (fun e => order top (fst e))
             (map (fun e => (fst e, scanned order (path_join top (fst e)) (snd e)))
                entries))
  end.

(** The triples [(root, dirs, files)] of a top-down walk of a tree whose
    directories are listed in the order of their entries. *)
Fixpoint walk_node (top : string) (n : node) : list (string * list string * list string) :=
  match n with
  | File _ => []
  | Dir entries =>
      (top, dir_names entries, file_names entries)
      :: flat_map (fun e => let '(name, child) := e in
                            walk_node (path_join top name) child) entries
  end.

(** [os.walk(top)]: every directory is listed with [os.scandir]; nothing is
    visited when [top] is not a directory. *)
Definition os_walk (top : string) : M (list (string * list string * list string)) :=
  fun w =>
    (Ok match fs w !! top with
        | Some n => walk_node top (scanned (scandir w) top n)
        | None => []
        end, w).

(* ===================================================================== *)
(** ** The script *)
(* ===================================================================== *)

Definition json_url : string :=
  "https://googlechromelabs.github.io/chrome-for-testing/known-good-versions-with-downloads.json".

(** The inner loop of the lookup:
    [for download in version_info['downloads']['chromedriver']]. *)
Fixpoint scan_downloads (platform_name version : string) (downloads : list json)
    : M (option (json * string)) :=
  match downloads with
  | [] => ret None
  | download :: rest =>
      platform <~ lift (subscript download "platform") ;;
      hit <~ lift (py_in platform_name platform) ;;
      if (hit : bool) then
        url <~ lift (subscript download "url") ;;
        print (FoundUrl url) ;;;
        ret (Some (url, version))
      else scan_downloads platform_name version rest
  end.

(** The outer loop: [for version_info in data['versions']]. *)
Fixpoint scan_versions (chrome_version_prefix platform_name : string)
    (versions : list json) : M (option (json * string)) :=
  match versions with
  | [] => ret None
  | version_info :: rest =>
      value <~ lift (subscript version_info "version") ;;
      version <~ lift (as_str value) ;;
      if startswith version chrome_version_prefix then
        downloads <~ lift (subscript version_info "downloads") ;;
        drivers <~ lift (subscript downloads "chromedriver") ;;
        items <~ lift (py_iter drivers) ;;
        found <~ scan_downloads platform_name version items ;;
        match found with
        | Some hit => ret (Some hit)
        | None => scan_versions chrome_version_prefix platform_name rest
        end
      else scan_versions chrome_version_prefix platform_name rest
  end.

(** The body of the [try] of [fetch_closest_chromedriver_url] (lines 50 to
    63): [Some] is the [return] inside the loops, [None] the end of the body. *)
Definition lookup_body (chrome_version_prefix : string)
    : M (option (json * string)) :=
  response <~ requests_get (JStr json_url) ;;
  raise_for_status response ;;;
  data <~ response_json response ;;
  system_name <~ ask system ;;
  platform_name <~ lift (get_platform_name system_name) ;;
  print (PlatformName platform_name) ;;;
  versions <~ lift (subscript data "versions") ;;
  items <~ lift (py_iter versions) ;;
  found <~ scan_versions chrome_version_prefix platform_name items ;;
  match found with
  | Some hit => ret (Some hit)
  | None => print NotFound ;;; ret None
  end.

(** Its [except] clauses (lines 64 to 67), tried in order. *)
Definition lookup_handler (e : exn) : M (option (json * string)) :=
  match e with
  | RequestException _ => print (RequestErrorReport e) ;;; ret None
  | _ => print (ErrorReport e) ;;; ret None
  end.

(** [fetch_closest_chromedriver_url].  The result is the pair the function
    returns: [(JNull, None)] is [(None, None)], and the version of a match is
    a [str]. *)
Definition fetch_closest_chromedriver_url (chrome_version_prefix : string)
    : M (json * option string) :=
  found <~ try_except (lookup_body chrome_version_prefix) lookup_handler ;;
  match found with
  | Some (url, version) => ret (url, Some version)
  | None => ret (JNull, None)
  end.

(** The name an f-string gives to [actual_version]. *)
Definition format_version (actual_version : option string) : string :=
  match actual_version with
  | Some version => version
  | None => "None"
  end.

Definition zip_path_of (base_path version : string) : string :=
  path_join base_path ("chromedriver_" +:+ version +:+ ".zip").

Definition extract_dir_of (base_path version : string) : string :=
  path_join base_path ("chromedriver_" +:+ version).

(** The inner loop of the search: [for file in files]. *)
Fixpoint scan_files (root : string) (files : list string) : option string :=
  match files with
  | [] => None
  | file :: rest =>
      if startswith file "chromedriver" then Some (path_join root file)
      else scan_files root rest
  end.

(** The outer loop: [for root, dirs, files in os.walk(extract_dir)], left as
    soon as [driver_file] is set and true.  The result is [driver_file] after
    the loop when [if driver_file:] holds, and [None] when it does not. *)
Fixpoint find_driver (triples : list (string * list string * list string))
    : option string :=
  match triples with
  | [] => None
  | (root, _, files) :: rest =>
      match scan_files root files with
      | Some driver_file =>
          if String.eqb driver_file "" then find_driver rest else Some driver_file
      | None => find_driver rest
      end
  end.

(** The body of the [try] of [download_and_update_chromedriver] (lines 83 to
    108). *)
Definition provision_body (driver_url : json) (version zip_path extract_dir : string)
    : M string :=
  response <~ requests_get driver_url ;;
  raise_for_status response ;;;
  write_file zip_path (content response) ;;;
  print (Downloaded version) ;;;
  print (Extracting version) ;;;
  extractall zip_path extract_dir ;;;
  triples <~ os_walk extract_dir ;;
  match find_driver triples with
  | Some driver_file =>
      os_remove zip_path ;;;
      print (DriverPath driver_file) ;;;
      ret driver_file
  | None =>
      print DriverFileMissing ;;;
      ret ""
  end.

(** Its [except] clauses (lines 109 to 114) and the [return ''] after them. *)
Definition provision_handler (e : exn) : M string :=
  match e with
  | RequestException _ => print (DownloadErrorReport e) ;;; ret ""
  | BadZipFile => print BadZipReport ;;; ret ""
  | _ => print (ErrorReport e) ;;; ret ""
  end.

(** [download_and_update_chromedriver]. *)
Definition download_and_update_chromedriver (version_prefix : string) : M string :=
  found <~ fetch_closest_chromedriver_url version_prefix ;;
  let '(driver_url, actual_version) := found in
  if negb (truthy driver_url) then
    print (NoDriverFor version_prefix) ;;;
    ret ""
  else
    base_path <~ ask script_dir ;;
    let version := format_version actual_version in
    let zip_path := zip_path_of base_path version in
    let extract_dir := extract_dir_of base_path version in
    print (Downloading version) ;;;
    try_except (provision_body driver_url version zip_path extract_dir)
               provision_handler.

(** The script run as a program: [download_and_update_chromedriver()] with
    the default prefix. *)
Definition main : M string :=
  print ScriptStart ;;;
  download_and_update_chromedriver "128".

(* ===================================================================== *)
(** ** The manifest, typed *)
(* ===================================================================== *)

(** The manifest as the interface describes it: an ordered list of version
    entries, each with its version and its chromedriver downloads. *)
Record Download := {
  platform : string;
  url : string
}.

Record VersionEntry := {
  version : string;
  chromedriver : list Download
}.

(** A decoded value has the shape of a download, of an entry, of a manifest:
    the keys the script reads are there with values of the expected type;
    other keys may be there too. *)
Definition download_shape (j : json) (d : Download) : Prop :=
  exists items,
    j = JDict items /\
    assoc "platform" items = Some (JStr (platform d)) /\
    assoc "url" items = Some (JStr (url d)).

Definition entry_shape (j : json) (e : VersionEntry) : Prop :=
  exists items downloads drivers,
    j = JDict items /\
    assoc "version" items = Some (JStr (version e)) /\
    assoc "downloads" items = Some (JDict downloads) /\
    assoc "chromedriver" downloads = Some (JList drivers) /\
    Forall2 download_shape drivers (chromedriver e).

Definition manifest_shape (data : json) (m : list VersionEntry) : Prop :=
  exists items versions,
    data = JDict items /\
    assoc "versions" items = Some (JList versions) /\
    Forall2 entry_shape versions m.

(** The encoding of a typed manifest with exactly the keys of the interface. *)
Definition download_json (d : Download) : json :=
  JDict [("platform", JStr (platform d)); ("url", JStr (url d))].

Definition entry_json (e : VersionEntry) : json :=
  JDict [("version", JStr (version e));
         ("downloads", JDict [("chromedriver", JList (map download_json (chromedriver e)))])].

Definition manifest_json (m : list VersionEntry) : json :=
  JDict [("versions", JList (map entry_json m))].

(** The words of the specification: a download is for the platform when its
    platform field contains the tag; an entry matches when its version starts
    with the prefix and it has a download for the platform. *)
Definition for_platform (tag : string) (d : Download) : bool :=
  str_contains (platform d) tag.

Definition entry_matches (prefix tag : string) (e : VersionEntry) : bool :=
  startswith (version e) prefix && existsb (for_platform tag) (chromedriver e).

(** The first match of a typed manifest, as the specification words it:
    entries in manifest order, the first that matches, and its first download
    for the platform. *)
Fixpoint first_match (prefix tag : string) (m : list VersionEntry)
    : option (string * string) :=
  match m with
  | [] => None
  | e :: rest =>
      if startswith (version e) prefix then
        match List.find (for_platform tag) (chromedriver e) with
        | Some d => Some (url d, version e)
        | None => first_match prefix tag rest
        end
      else first_match prefix tag rest
  end.

(** The manifest GET succeeds with [data] as the decoded body. *)
Definition manifest_served (w : world) (data : json) : Prop :=
  exists r,
    http w json_url = GetReturns r /\
    ((400 <=? status_code r) && (status_code r <? 600)) = false /\
    content r = JsonDoc data.

(** The state once the archive [c] of version [v] is written and the two
    progress lines are printed (line 89), from the state [w] the lookup
    left. *)
Definition archive_written (v : string) (c : blob) (w : world) : world :=
  add_out (Extracting v)
    (add_out (Downloaded v)
       (set_fs (<[zip_path_of (script_dir w) v := File c]> (fs w))
          (add_out (Downloading v) w))).

(** The GET of the driver URL succeeds with the bytes [c]. *)
Definition archive_served (w : world) (driver_url : json) (c : blob) : Prop :=
  exists u r,
    driver_url = JStr u /\
    http w u = GetReturns r /\
    ((400 <=? status_code r) && (status_code r <? 600)) = false /\
    content r = c.

(** Two states of one host: the operating system, the network, the script
    directory and the listing order are the same. *)
Definition same_host (w w' : world) : Prop :=
  system w' = system w /\ http w' = http w /\ script_dir w' = script_dir w /\
  scandir w' = scandir w.

(** A computation that leaves the host as it is and the file system as it is
    outside the paths of [S]. *)
Definition writes_within (S : string -> Prop) {A} (m : M A) : Prop :=
  forall w r w',
    m w = (r, w') ->
    same_host w w' /\ forall p, ~ S p -> fs w' !! p = fs w !! p.

(** The files of a walk, each with the root it is listed under, in the order
    the walk visits them. *)
Definition walk_files (triples : list (string * list string * list string))
    : list (string * string) :=
  flat_map (fun t => let '(root, _, files) := t in map (pair root) files) triples.

(** No file of the tree has a name that starts with [chromedriver]. *)
Fixpoint no_driver (n : node) : bool :=
  match n with
  | File _ => true
  | Dir entries =>
      forallb (fun e => let '(name, child) := e in
                 match child with
                 | File _ => negb (startswith name "chromedriver")
                 | Dir _ => no_driver child
                 end) entries
  end.

(** An entry of a listing that is not a driver file and holds none. *)
Definition entry_clean (e : string * node) : bool :=
  match snd e with
  | File _ => negb (startswith (fst e) "chromedriver")
  | Dir _ => no_driver (snd e)
  end.

(** What is at the extraction path, if anything, holds no driver file. *)
Definition target_clean (target : option node) : bool :=
  match target with
  | Some n => no_driver n
  | None => true
  end.

(** The name of the file a member is extracted to: the last part of its
    cleaned name. *)
Definition member_file_name (m : member) : option string :=
  if is_dir m then None else last (arcname (filename m)).

(** A member that is not extracted to a file named like the driver. *)
Definition member_clean (m : member) : bool :=
  match member_file_name m with
  | Some name => negb (startswith name "chromedriver")
  | None => true
  end.

(* ===================================================================== *)
(** ** A concrete run *)
(* ===================================================================== *)

(** A server for the manifest URL and for the archives of a list. *)
Definition serve (manifest : blob) (archives : list (string * blob)) (u : string)
    : get_outcome :=
  if String.eqb u json_url then GetReturns (Response 200 manifest)
  else match List.find (fun a => String.eqb u (fst a)) archives with
       | Some a => GetReturns (Response 200 (snd a))
       | None => GetRaises ConnectionError
       end.

Definition linux_driver (v : string) : VersionEntry :=
  {| version := v;
     chromedriver :=
       [ {| platform := "mac-arm64"; url := "https://cft.test/" +:+ v +:+ "/mac-arm64.zip" |};
         {| platform := "linux64"; url := "https://cft.test/" +:+ v +:+ "/linux64.zip" |} ] |}.

(** The manifest of the specification's example. *)
Definition example_manifest : list VersionEntry :=
  [linux_driver "128.0.1"; linux_driver "128.0.2"; linux_driver "127.9.9"].

(** The archive of the specification's example. *)
Definition example_archive : blob :=
  ZipArchive [Member "LICENSE.chromedriver" "license" true;
              Member "chromedriver" "driver" true].

Definition example_world : world :=
  {| system := "Linux";
     http := serve (JsonDoc (manifest_json example_manifest))
               [("https://cft.test/128.0.1/linux64.zip", example_archive)];
     script_dir := "/opt/tool";
     scandir := fun _ _ => 0%nat;
     fs := ∅;
     out := [] |}.

(** The same server on a host of another operating system. *)
Definition freebsd_world : world :=
  {| system := "FreeBSD";
     http := http example_world;
     script_dir := "/opt/tool";
     scandir := fun _ _ => 0%nat;
     fs := ∅;
     out := [] |}.

(** A server that answers the manifest GET with the status 300 and the
    manifest as the body. *)
Definition multiple_choices_world : world :=
  {| system := "Linux";
     http := fun u =>
       if String.eqb u json_url
       then GetReturns (Response 300 (JsonDoc (manifest_json example_manifest)))
       else http example_world u;
     script_dir := "/opt/tool";
     scandir := fun _ _ => 0%nat;
     fs := ∅;
     out := [] |}.

(** An archive with the licence only, in the directory the real archives
    have, and a server that has it for 128.0.1. *)
Definition licence_archive : blob :=
  ZipArchive [Member "chromedriver-linux64/" "" true;
              Member "chromedriver-linux64/LICENSE.chromedriver" "license" true].

Definition licence_world : world :=
  {| system := "Linux";
     http := serve (JsonDoc (manifest_json example_manifest))
               [("https://cft.test/128.0.1/linux64.zip", licence_archive)];
     script_dir := "/opt/tool";
     scandir := fun _ _ => 0%nat;
     fs := ∅;
     out := [] |}.

(** A server whose archive for 128.0.1 is not a zip file. *)
Definition corrupt_world : world :=
  {| system := "Linux";
     http := serve (JsonDoc (manifest_json example_manifest))
               [("https://cft.test/128.0.1/linux64.zip", Raw "<html>moved</html>")];
     script_dir := "/opt/tool";
     scandir := fun _ _ => 0%nat;
     fs := ∅;
     out := [] |}.

(** A manifest whose first entry for the prefix has browser downloads only,
    as the entries of the manifest that predate the driver downloads have. *)
Definition browser_only_manifest : json :=
  JDict [("timestamp", JStr "2024-09-01T00:00:00.000Z");
         ("versions",
          JList [JDict [("version", JStr "128.0.0");
                        ("revision", JStr "1");
                        ("downloads",
                         JDict [("chrome",
                                 JList [download_json
                                          {| platform := "linux64";
                                             url := "https://cft.test/128.0.0/chrome.zip" |}])])];
                 entry_json (linux_driver "128.0.1")])].

Definition browser_only_world : world :=
  {| system := "Linux";
     http := serve (JsonDoc browser_only_manifest) [];
     script_dir := "/opt/tool";
     scandir := fun _ _ => 0%nat;
     fs := ∅;
     out := [] |}.

(** The licence-only archive again, on a disk where an earlier run left the
    driver of 128.0.1. *)
Definition stale_world : world :=
  {| system := "Linux";
     http := http licence_world;
     script_dir := "/opt/tool";
     scandir := fun _ _ => 0%nat;
     fs := {[ "/opt/tool/chromedriver_128.0.1" :=
                Dir [("chromedriver-linux64",
                      Dir [("chromedriver", File (Raw "driver"))])] ]};
     out := [] |}.

(** The position of a name in a listing. *)
Fixpoint position (name : string) (names : list string) : nat :=
  match names with
  | [] => 0%nat
  | first :: rest => if String.eqb name first then 0%nat else S (position name rest)
  end.

(** The listing order of a file system that lists the directories of
    [listings] as given there. *)
Definition listed_as (listings : list (string * list string)) (dir name : string) : nat :=
  match List.find (fun l => String.eqb dir (fst l)) listings with
  | Some l => position name (snd l)
  | None => 0%nat
  end.

(** An archive with several files named like the driver, on a host whose file
    system lists [b] before [a] and [chromedriver] before [chromedriver_x]. *)
Definition crowded_archive : blob :=
  ZipArchive [Member "LICENSE.chromedriver" "license" true;
              Member "a/chromedriver" "driver a" true;
              Member "b/chromedriver_x" "driver x" true;
              Member "b/chromedriver" "driver b" true].

Definition crowded_world : world :=
  {| system := "Linux";
     http := serve (JsonDoc (manifest_json example_manifest))
               [("https://cft.test/128.0.1/linux64.zip", crowded_archive)];
     script_dir := "/opt/tool";
     scandir :=
       listed_as
         [("/opt/tool/chromedriver_128.0.1", ["b"; "LICENSE.chromedriver"; "a"]);
          ("/opt/tool/chromedriver_128.0.1/b", ["chromedriver"; "chromedriver_x"])];
     fs := ∅;
     out := [] |}.



(** A manifest whose version has a path separator in it. *)
Definition separator_world : world :=
  {| system := "Linux";
     http := serve (JsonDoc (manifest_json
                       [ {| version := "128/0";
                            chromedriver :=
                              [ {| platform := "linux64";
                                   url := "https://cft.test/128.0.1/linux64.zip" |} ] |} ]))
               [("https://cft.test/128.0.1/linux64.zip", example_archive)];
     script_dir := "/opt/tool";
     scandir := fun _ _ => 0%nat;
     fs := ∅;
     out := [] |}.

(** A manifest with the single version 128.0.1. *)
Definition short_prefix_world : world :=
  {| system := "Linux";
     http := serve (JsonDoc (manifest_json
                       [ {| version := "128.0.1";
                            chromedriver :=
                              [ {| platform := "linux64";
                                   url := "https://cft.test/128.0.1/linux64.zip" |} ] |} ])) [];
     script_dir := "/opt/tool";
     scandir := fun _ _ => 0%nat;
     fs := ∅;
     out := [] |}.

(** A manifest whose entry for the prefix lists, after a download for
    another platform, something that is no download. *)
Definition broken_download_manifest : json :=
  JDict [("versions",
          JList [JDict [("version", JStr "128.0.0");
                        ("downloads",
                         JDict [("chromedriver",
                                 JList [download_json
                                          {| platform := "mac-arm64";
                                             url := "https://cft.test/128.0.0/mac-arm64.zip" |};
                                        JNull;
                                        download_json
                                          {| platform := "linux64";
                                             url := "https://cft.test/128.0.0/linux64.zip" |}])])];
                 entry_json (linux_driver "128.0.1")])].

Definition broken_download_world : world :=
  {| system := "Linux";
     http := serve (JsonDoc broken_download_manifest) [];
     script_dir := "/opt/tool";
     scandir := fun _ _ => 0%nat;
     fs := ∅;
     out := [] |}.

(** A manifest as the real one is laid out: an early entry with browser
    downloads only, the entry for 128.0.1, and something that is no entry. *)
Definition early_entries_manifest : json :=
  JDict [("timestamp", JStr "2024-09-01T00:00:00.000Z");
         ("versions",
          JList [JDict [("version", JStr "113.0.5672.0");
                        ("revision", JStr "1121455");
                        ("downloads",
                         JDict [("chrome",
                                 JList [download_json
                                          {| platform := "linux64";
                                             url := "https://cft.test/113/chrome.zip" |}])])];
                 entry_json (linux_driver "128.0.1");
                 JNull])].

Definition early_entries_world : world :=
  {| system := "Linux";
     http := serve (JsonDoc early_entries_manifest) [];
     script_dir := "/opt/tool";
     scandir := fun _ _ => 0%nat;
     fs := ∅;
     out := [] |}.

(** A manifest without versions. *)
Definition no_versions_world : world :=
  {| system := "Linux";
     http := serve (JsonDoc (JDict [("versions", JList [])])) [];
     script_dir := "/opt/tool";
     scandir := fun _ _ => 0%nat;
     fs := ∅;
     out := [] |}.

(** A manifest whose download for the platform has an empty url. *)
Definition empty_url_manifest : list VersionEntry :=
  [ {| version := "128.0.1";
       chromedriver := [ {| platform := "linux64"; url := "" |} ] |};
    linux_driver "128.0.2" ].

Definition empty_url_world : world :=
  {| system := "Linux";
     http := serve (JsonDoc (manifest_json empty_url_manifest)) [];
     script_dir := "/opt/tool";
     scandir := fun _ _ => 0%nat;
     fs := ∅;
     out := [] |}.

(** A host without network. *)
Definition offline_world : world :=
  {| system := "Linux";
     http := fun _ => GetRaises ConnectionError;
     script_dir := "/opt/tool";
     scandir := fun _ _ => 0%nat;
     fs := ∅;
     out := [] |}.

(** The ways the manifest GET fails, with the exception each one raises in
    the lookup: [requests.get] raises (no connection, a timeout, ...);
    [raise_for_status] refuses the status; [response.json()] cannot decode
    the body. *)
Inductive manifest_get_fails (w : world) : exn -> Prop :=
  | get_raises err :
      http w json_url = GetRaises err ->
      manifest_get_fails w (RequestException err)
  | status_refused r :
      http w json_url = GetReturns r ->
      400 <= status_code r < 600 ->
      manifest_get_fails w (RequestException (HTTPError (status_code r)))
  | body_malformed r :
      http w json_url = GetReturns r ->
      ~ 400 <= status_code r < 600 ->
      (forall data, content r <> JsonDoc data) ->
      manifest_get_fails w (RequestException JSONDecodeError).

(* ===================================================================== *)
(** ** Vocabulary of the further properties *)
(* ===================================================================== *)

(** The lines the driver update prints last when it gives up. *)
Definition is_failure_report (r : report) : bool :=
  match r with
  | NoDriverFor _ | DriverFileMissing | DownloadErrorReport _
  | BadZipReport | ErrorReport _ => true
  | _ => false
  end.

(** An entry the scan passes over: its version is a string that does not
    start with the prefix (nothing else of it is read), or it is a
    well-formed entry without a download for the platform. *)
Definition passed_over (prefix tag : string) (j : json) : Prop :=
  (exists items v,
     j = JDict items /\
     assoc "version" items = Some (JStr v) /\
     startswith v prefix = false) \/
  (exists e,
     entry_shape j e /\
     existsb (for_platform tag) (chromedriver e) = false).

(** A download the inner loop passes over: an object whose platform is a
    text, a list or an object that does not contain the tag. *)
Definition download_passed (tag : string) (j : json) : Prop :=
  exists items p,
    j = JDict items /\
    assoc "platform" items = Some p /\
    py_in tag p = Ok false.

(** A download at which the inner loop raises, with the exception: it is not
    an object, it has no platform, its platform is nothing the tag can be
    searched in, or it is for the platform and has no url. *)
Inductive download_raises (tag : string) : json -> exn -> Prop :=
  | download_not_object j :
      (forall items, j <> JDict items) ->
      download_raises tag j TypeError
  | download_without_platform items :
      assoc "platform" items = None ->
      download_raises tag (JDict items) (KeyError "platform")
  | download_platform_not_searchable items p :
      assoc "platform" items = Some p ->
      py_in tag p = Raise TypeError ->
      download_raises tag (JDict items) TypeError
  | download_without_url items p :
      assoc "platform" items = Some p ->
      py_in tag p = Ok true ->
      assoc "url" items = None ->
      download_raises tag (JDict items) (KeyError "url").

(** An entry at which the scan raises, with the exception: the entry is not
    an object, has no version, has a version that is not a string, or its
    version starts with the prefix and its chromedriver downloads cannot be
    reached, cannot be iterated, or hold, after downloads that are passed
    over, one at which the inner loop raises. *)
Inductive entry_raises (prefix tag : string) : json -> exn -> Prop :=
  | entry_not_object j :
      (forall items, j <> JDict items) ->
      entry_raises prefix tag j TypeError
  | entry_without_version items :
      assoc "version" items = None ->
      entry_raises prefix tag (JDict items) (KeyError "version")
  | entry_version_not_str items value :
      assoc "version" items = Some value ->
      (forall v, value <> JStr v) ->
      entry_raises prefix tag (JDict items) AttributeError
  | entry_without_downloads items v :
      assoc "version" items = Some (JStr v) ->
      startswith v prefix = true ->
      assoc "downloads" items = None ->
      entry_raises prefix tag (JDict items) (KeyError "downloads")
  | entry_downloads_not_object items v value :
      assoc "version" items = Some (JStr v) ->
      startswith v prefix = true ->
      assoc "downloads" items = Some value ->
      (forall downloads, value <> JDict downloads) ->
      entry_raises prefix tag (JDict items) TypeError
  | entry_without_driver items v downloads :
      assoc "version" items = Some (JStr v) ->
      startswith v prefix = true ->
      assoc "downloads" items = Some (JDict downloads) ->
      assoc "chromedriver" downloads = None ->
      entry_raises prefix tag (JDict items) (KeyError "chromedriver")
  | entry_driver_not_iterable items v downloads value :
      assoc "version" items = Some (JStr v) ->
      startswith v prefix = true ->
      assoc "downloads" items = Some (JDict downloads) ->
      assoc "chromedriver" downloads = Some value ->
      py_iter value = Raise TypeError ->
      entry_raises prefix tag (JDict items) TypeError
  | entry_download_raises items v downloads value passed bad rest e :
      assoc "version" items = Some (JStr v) ->
      startswith v prefix = true ->
      assoc "downloads" items = Some (JDict downloads) ->
      assoc "chromedriver" downloads = Some value ->
      py_iter value = Ok (passed ++ bad :: rest)%list ->
      Forall (download_passed tag) passed ->
      download_raises tag bad e ->
      entry_raises prefix tag (JDict items) e.

(** The ways the GET of the archive fails, with the exception each raises:
    the URL is no string, [requests.get] raises, or [raise_for_status]
    refuses the status. *)
Inductive archive_get_fails (w : world) : json -> exn -> Prop :=
  | archive_url_not_str u :
      (forall s, u <> JStr s) ->
      archive_get_fails w u (RequestException InvalidURL)
  | archive_get_raises s err :
      http w s = GetRaises err ->
      archive_get_fails w (JStr s) (RequestException err)
  | archive_status_refused s r :
      http w s = GetReturns r ->
      400 <= status_code r < 600 ->
      archive_get_fails w (JStr s) (RequestException (HTTPError (status_code r))).

(** Two states with the same operating system and the same network. *)
Definition same_server (w w2 : world) : Prop :=
  system w2 = system w /\ http w2 = http w.

(** A computation whose result is the same on any disk and after any
    printed text. *)
Definition disk_blind {A} (m : M A) : Prop :=
  forall w w2,
    same_server w w2 ->
    fst (m w2) = fst (m w) /\ same_server (snd (m w)) (snd (m w2)).

(** The listing of a tree: the names and the kinds, without the data of the
    files.  It is all a walk reads. *)
Fixpoint listing (n : node) : node :=
  match n with
  | File _ => File (Raw "")
  | Dir entries => Dir (map (fun e => (fst e, listing (snd e))) entries)
  end.

(** The entry of a listing that a name denotes: the first one. *)
Fixpoint entry_named (name : string) (entries : list (string * node)) : option node :=
  match entries with
  | [] => None
  | (k, n) :: rest => if String.eqb k name then Some n else entry_named name rest
  end.

(** A file, or a directory, is at [parts] below [target]. *)
Fixpoint has_leaf (parts : list string) (file : bool) (target : option node) : bool :=
  match parts, target with
  | [], Some (File _) => file
  | [], Some (Dir _) => negb file
  | part :: parts', Some (Dir entries) => has_leaf parts' file (entry_named part entries)
  | _, _ => false
  end.

Definition is_file_leaf (l : leaf) : bool :=
  match l with
  | LeafFile _ => true
  | LeafDir => false
  end.

(** A member the extraction has put in place: its name is not empty, its
    data passed the check, and its file or directory is there. *)
Definition member_extracted (target : option node) (m : member) : bool :=
  negb (String.eqb (filename m) "") &&
  (is_dir m || crc_ok m) &&
  has_leaf (arcname (filename m)) (negb (is_dir m)) target.

(** A member that is extracted to a file named like the driver. *)
Definition member_is_driver (m : member) : bool :=
  match member_file_name m with
  | Some name => startswith name "chromedriver"
  | None => false
  end.

(** Something is at the extraction path and holds a driver file. *)
Definition target_has_driver (target : option node) : bool :=
  match target with
  | Some n => negb (no_driver n)
  | None => false
  end.

(* ===================================================================== *)
(** ** Strings and paths *)
(* ===================================================================== *)

Section Strings.

Lemma app_cons c a b : String c a +:+ b = String c (a +:+ b).
Proof. reflexivity. Qed.

Lemma startswith_empty s : startswith s "" = true.
Proof. destruct s; reflexivity. Qed.

Lemma startswith_app p rest : startswith (p +:+ rest) p = true.
Proof.
  induction p as [|c p IH]; simpl.
  - apply startswith_empty.
  - rewrite Ascii.eqb_refl. exact IH.
Qed.

Lemma startswith_prefix s p :
  startswith s p = true <-> exists rest, s = p +:+ rest.
Proof.
  split.
  - revert s. induction p as [|c p IH]; intros s H.
    + exists s. reflexivity.
    + destruct s as [|d s]; simpl in H; [discriminate|].
      apply andb_prop in H as [Hc Hs].
      apply Ascii.eqb_eq in Hc. subst d.
      destruct (IH _ Hs) as [rest ->].
      exists rest. reflexivity.
  - intros [rest ->]. apply startswith_app.
Qed.

Lemma startswith_cons_nonempty s c p : startswith s (String c p) = true -> s <> "".
Proof. destruct s; simpl; [discriminate | intros _; discriminate]. Qed.

Lemma app_nonempty_r a b : b <> "" -> a +:+ b <> "".
Proof. destruct a; simpl; [auto | intros _; discriminate]. Qed.

Lemma app_inj_l a b1 b2 : a +:+ b1 = a +:+ b2 -> b1 = b2.
Proof.
  induction a as [|c a IH]; simpl; intros H; [exact H|].
  injection H as H. auto.
Qed.

Lemma length_app a b : String.length (a +:+ b) = (String.length a + String.length b)%nat.
Proof.
  induction a as [|x a IH]; [reflexivity|].
  rewrite app_cons. simpl. f_equal. exact IH.
Qed.

(** A joined path is the base, a separator when the base needs one, and the
    name, whenever the name is relative. *)
Lemma path_join_relative a b :
  startswith b "/" = false ->
  path_join a b = a +:+ (if String.eqb a "" || endswith_char a "/" then "" else "/") +:+ b.
Proof.
  intros H. unfold path_join. rewrite H.
  destruct (String.eqb a "" || endswith_char a "/"); reflexivity.
Qed.

Lemma path_join_nonempty a b : b <> "" -> path_join a b <> "".
Proof.
  intros H. unfold path_join.
  destruct (startswith b "/"); [exact H|].
  destruct (String.eqb a "" || endswith_char a "/").
  - now apply app_nonempty_r.
  - apply app_nonempty_r. discriminate.
Qed.

Lemma path_join_inj a b1 b2 :
  startswith b1 "/" = false -> startswith b2 "/" = false ->
  path_join a b1 = path_join a b2 -> b1 = b2.
Proof.
  intros H1 H2. rewrite !path_join_relative by assumption.
  intros H. now apply app_inj_l, app_inj_l in H.
Qed.

(** The archive and the directory it is extracted to never share a path. *)
Lemma zip_path_not_extract_dir base v : zip_path_of base v <> extract_dir_of base v.
Proof.
  unfold zip_path_of, extract_dir_of. intros H.
  apply path_join_inj in H; [|reflexivity..].
  apply (f_equal String.length) in H.
  rewrite !length_app in H. simpl in H. lia.
Qed.

End Strings.


(* ===================================================================== *)
(** ** The lookup on a manifest of the documented shape *)
(* ===================================================================== *)

Section Lookup.

Variables (prefix tag : string).

Lemma scan_downloads_shape v drivers ds :
  Forall2 download_shape drivers ds ->
  forall w,
    scan_downloads tag v drivers w =
    match List.find (for_platform tag) ds with
    | Some d => (Ok (Some (JStr (url d), v)), add_out (FoundUrl (JStr (url d))) w)
    | None => (Ok None, w)
    end.
Proof.
  induction 1 as [|j d drivers ds (items & -> & Hp & Hu) _ IH]; intros w.
  - reflexivity.
  - cbn [scan_downloads List.find]. unfold bind, lift, subscript.
    rewrite Hp. cbn [py_in]. fold (for_platform tag d).
    destruct (for_platform tag d).
    + rewrite Hu. reflexivity.
    + apply IH.
Qed.

Lemma scan_versions_shape versions m :
  Forall2 entry_shape versions m ->
  forall w,
    scan_versions prefix tag versions w =
    match first_match prefix tag m with
    | Some (u, v) => (Ok (Some (JStr u, v)), add_out (FoundUrl (JStr u)) w)
    | None => (Ok None, w)
    end.
Proof.
  induction 1 as [|j e versions m (items & downloads & drivers & -> & Hv & Hd & Hc & Hds) _ IH];
    intros w.
  - reflexivity.
  - cbn [scan_versions first_match]. unfold bind at 1 2, lift, subscript.
    rewrite Hv. cbn [as_str].
    destruct (startswith (version e) prefix); [|apply IH].
    unfold bind at 1 2 3 4. rewrite Hd, Hc. cbn [py_iter].
    rewrite (scan_downloads_shape _ _ _ Hds).
    destruct (List.find (for_platform tag) (chromedriver e)); [reflexivity|apply IH].
Qed.

(** The body of the [try] once the manifest is fetched and decoded: what is
    left is the platform, the scan and the not-found line. *)
Lemma lookup_body_fetched w data :
  manifest_served w data ->
  lookup_body prefix w =
    match get_platform_name (system w) with
    | Ok platform_name =>
        (print (PlatformName platform_name) ;;;
         versions <~ lift (subscript data "versions") ;;
         items <~ lift (py_iter versions) ;;
         found <~ scan_versions prefix platform_name items ;;
         match found with
         | Some hit => ret (Some hit)
         | None => print NotFound ;;; ret None
         end) w
    | Raise e => (Raise e, w)
    end.
Proof.
  intros (r & Hget & Hstatus & Hbody). unfold lookup_body.
  unfold bind at 1, requests_get. rewrite Hget.
  unfold bind at 1, raise_for_status. rewrite Hstatus. unfold ret at 1.
  unfold bind at 1, response_json. rewrite Hbody. unfold ret at 1.
  unfold bind at 1, ask. unfold bind at 1, lift at 1.
  destruct (get_platform_name (system w)); reflexivity.
Qed.

(** The whole lookup, against the words of the specification. *)
Lemma lookup_served w data m :
  manifest_served w data ->
  manifest_shape data m ->
  get_platform_name (system w) = Ok tag ->
  fetch_closest_chromedriver_url prefix w =
  match first_match prefix tag m with
  | Some (u, v) =>
      (Ok (JStr u, Some v), add_out (FoundUrl (JStr u)) (add_out (PlatformName tag) w))
  | None => (Ok (JNull, None), add_out NotFound (add_out (PlatformName tag) w))
  end.
Proof.
  intros Hserved (items & versions & -> & Hvs & Hshape) Htag.
  unfold fetch_closest_chromedriver_url, bind at 1, try_except.
  rewrite (lookup_body_fetched _ _ Hserved), Htag.
  unfold bind at 1, print at 1. unfold bind at 1, lift at 1, subscript. rewrite Hvs.
  unfold bind at 1, lift at 1. cbn [py_iter].
  unfold bind at 1.
  rewrite (scan_versions_shape _ _ Hshape).
  destruct (first_match prefix tag m) as [[u v]|]; reflexivity.
Qed.

End Lookup.


Lemma find_first {A} (f : A -> bool) before x after :
  (forall y, In y before -> f y = false) -> f x = true ->
  List.find f (before ++ x :: after)%list = Some x.
Proof.
  induction before as [|a before IH]; intros Hb Hx; simpl.
  - now rewrite Hx.
  - rewrite (Hb a (or_introl eq_refl)). apply IH; [|exact Hx].
    intros y Hy. apply Hb. now right.
Qed.

Lemma existsb_false_find {A} (f : A -> bool) l :
  existsb f l = false -> List.find f l = None.
Proof.
  induction l as [|a l IH]; simpl; [reflexivity|].
  destruct (f a); simpl; [discriminate | exact IH].
Qed.

Lemma first_match_none prefix tag m :
  (forall e, In e m -> entry_matches prefix tag e = false) ->
  first_match prefix tag m = None.
Proof.
  induction m as [|e m IH]; intros H; [reflexivity|].
  simpl. pose proof (H e (or_introl eq_refl)) as He. unfold entry_matches in He.
  assert (IH' : first_match prefix tag m = None).
  { apply IH. intros e' He'. apply H. now right. }
  destruct (startswith (version e) prefix); [|exact IH'].
  simpl in He. now rewrite (existsb_false_find _ _ He).
Qed.

Lemma first_match_first prefix tag before e after dbefore d dafter :
  (forall e', In e' before -> entry_matches prefix tag e' = false) ->
  startswith (version e) prefix = true ->
  chromedriver e = (dbefore ++ d :: dafter)%list ->
  (forall d', In d' dbefore -> for_platform tag d' = false) ->
  for_platform tag d = true ->
  first_match prefix tag (before ++ e :: after)%list = Some (url d, version e).
Proof.
  intros Hb Hv Hds Hdb Hd.
  induction before as [|a before IH]; simpl.
  - rewrite Hv, Hds, (find_first _ _ _ _ Hdb Hd). reflexivity.
  - pose proof (Hb a (or_introl eq_refl)) as Ha. unfold entry_matches in Ha.
    assert (IH' : first_match prefix tag (before ++ e :: after)%list = Some (url d, version e)).
    { apply IH. intros e' He'. apply Hb. now right. }
    destruct (startswith (version a) prefix); [|exact IH'].
    simpl in Ha. now rewrite (existsb_false_find _ _ Ha).
Qed.

Lemma manifest_json_shape m : manifest_shape (manifest_json m) m.
Proof.
  exists [("versions", JList (map entry_json m))], (map entry_json m).
  repeat split. induction m as [|e m IH]; constructor; [|exact IH].
  exists [("version", JStr (version e));
          ("downloads", JDict [("chromedriver", JList (map download_json (chromedriver e)))])],
         [("chromedriver", JList (map download_json (chromedriver e)))],
         (map download_json (chromedriver e)).
  repeat split. clear. induction (chromedriver e) as [|d ds IH]; constructor; [|exact IH].
  exists [("platform", JStr (platform d)); ("url", JStr (url d))]. repeat split.
Qed.

Lemma example_served : manifest_served example_world (manifest_json example_manifest).
Proof. eexists. repeat split. Qed.

(** C1.  On a manifest of the documented shape the lookup returns the URL and
    the version of the first entry, in manifest order, whose version starts
    with the prefix and which has a chromedriver download whose platform
    field contains the platform tag (the URL is that of the first such
    download of the entry); for the versions 128.0.1, 128.0.2, 127.9.9 and
    the prefix 128 it returns 128.0.1. *)
Theorem lookup_returns_first_match :
  (forall w data prefix tag before e after dbefore d dafter,
     manifest_served w data ->
     manifest_shape data (before ++ e :: after)%list ->
     get_platform_name (system w) = Ok tag ->
     (forall e', In e' before -> entry_matches prefix tag e' = false) ->
     startswith (version e) prefix = true ->
     chromedriver e = (dbefore ++ d :: dafter)%list ->
     (forall d', In d' dbefore -> for_platform tag d' = false) ->
     for_platform tag d = true ->
     fetch_closest_chromedriver_url prefix w =
       (Ok (JStr (url d), Some (version e)),
        add_out (FoundUrl (JStr (url d))) (add_out (PlatformName tag) w))) /\
  map version example_manifest = ["128.0.1"; "128.0.2"; "127.9.9"] /\
  fst (fetch_closest_chromedriver_url "128" example_world) =
    Ok (JStr "https://cft.test/128.0.1/linux64.zip", Some "128.0.1").
Proof.
  split; [|split].
  - intros w data prefix tag before e after dbefore d dafter Hs Hm Ht Hb Hv Hds Hdb Hd.
    rewrite (lookup_served prefix tag w data _ Hs Hm Ht).
    now rewrite (first_match_first _ _ _ _ _ _ _ _ Hb Hv Hds Hdb Hd).
  - reflexivity.
  - rewrite (lookup_served "128" "linux64" _ _ _ example_served
               (manifest_json_shape example_manifest) eq_refl).
    reflexivity.
Qed.

Lemma lookup_returns_first_match_witness :
  fetch_closest_chromedriver_url "128" example_world =
    (Ok (JStr "https://cft.test/128.0.1/linux64.zip", Some "128.0.1"),
     add_out (FoundUrl (JStr "https://cft.test/128.0.1/linux64.zip"))
       (add_out (PlatformName "linux64") example_world)).
Proof.
  apply (proj1 lookup_returns_first_match example_world
           (manifest_json example_manifest) "128" "linux64"
           [] (linux_driver "128.0.1") [linux_driver "128.0.2"; linux_driver "127.9.9"]
           [ {| platform := "mac-arm64"; url := "https://cft.test/128.0.1/mac-arm64.zip" |} ]
           {| platform := "linux64"; url := "https://cft.test/128.0.1/linux64.zip" |} []).
  - exact example_served.
  - exact (manifest_json_shape example_manifest).
  - reflexivity.
  - intros e' [].
  - reflexivity.
  - reflexivity.
  - intros d' [<-|[]]. reflexivity.
  - reflexivity.
Defined.

(** C7.  On a manifest of the documented shape in which no entry has both a
    version that starts with the prefix and a download for the platform, the
    lookup returns (None, None), prints that no match was found, and raises
    nothing. *)
Theorem lookup_no_match w data m prefix tag :
  manifest_served w data ->
  manifest_shape data m ->
  get_platform_name (system w) = Ok tag ->
  (forall e, In e m ->
     startswith (version e) prefix = false \/
     (forall d, In d (chromedriver e) -> for_platform tag d = false)) ->
  fetch_closest_chromedriver_url prefix w =
    (Ok (JNull, None), add_out NotFound (add_out (PlatformName tag) w)).
Proof.
  intros Hs Hm Ht Hno.
  rewrite (lookup_served prefix tag w data m Hs Hm Ht).
  rewrite first_match_none; [reflexivity|].
  intros e He. unfold entry_matches.
  destruct (Hno e He) as [-> | Hd]; [reflexivity|].
  apply andb_false_intro2.
  apply not_true_is_false. intros Hex. apply existsb_exists in Hex as (d & Hin & Hfor).
  rewrite (Hd d Hin) in Hfor. discriminate.
Qed.

Lemma lookup_no_match_witness :
  fetch_closest_chromedriver_url "129" example_world =
    (Ok (JNull, None), add_out NotFound (add_out (PlatformName "linux64") example_world)).
Proof.
  apply (lookup_no_match example_world (manifest_json example_manifest)
           example_manifest "129" "linux64").
  - exact example_served.
  - exact (manifest_json_shape example_manifest).
  - reflexivity.
  - intros e [<-|[<-|[<-|[]]]]; left; reflexivity.
Defined.


(* ===================================================================== *)
(** ** Platform resolution and prefix matching *)
(* ===================================================================== *)

(** C5.  Platform resolution is a function of the host OS identifier alone:
    Windows gives win32, Darwin gives mac-arm64, Linux gives linux64, every
    other identifier raises the unsupported-platform error, and a result is
    always one of the three tags. *)
Theorem platform_resolution :
  get_platform_name "Windows" = Ok "win32" /\
  get_platform_name "Darwin" = Ok "mac-arm64" /\
  get_platform_name "Linux" = Ok "linux64" /\
  (forall s, s <> "Windows" -> s <> "Darwin" -> s <> "Linux" ->
     get_platform_name s = Raise (RuntimeError s)) /\
  (forall s tag, get_platform_name s = Ok tag ->
     tag = "win32" \/ tag = "mac-arm64" \/ tag = "linux64").
Proof.
  repeat split.
  - intros s Hw Hd Hl. unfold get_platform_name.
    apply String.eqb_neq in Hw, Hd, Hl. now rewrite Hw, Hd, Hl.
  - intros s tag. unfold get_platform_name.
    destruct (String.eqb s "Windows"); [intros [= <-]; auto|].
    destruct (String.eqb s "Darwin"); [intros [= <-]; auto|].
    destruct (String.eqb s "Linux"); [intros [= <-]; auto|].
    discriminate.
Qed.

Lemma str_contains_self s : str_contains s s = true.
Proof.
  destruct s as [|c s]; [reflexivity|].
  cbn [str_contains]. replace (startswith (String c s) (String c s)) with true; [reflexivity|].
  symmetry. apply startswith_prefix. exists "". induction (String c s) as [|x t IH]; [reflexivity|].
  rewrite app_cons. now f_equal.
Qed.

(** C9.  The test of the version against the prefix is a raw prefix test:
    a version matches exactly when it is the prefix followed by any text, so
    an entry is selected by the lookup exactly then; the prefix 12 matches
    128.0.1 as it matches 12.0.0. *)
Theorem prefix_match_is_raw :
  (forall v p, startswith v p = true <-> exists rest, v = p +:+ rest) /\
  (forall w data tag p v u,
     manifest_served w data ->
     manifest_shape data
       [ {| version := v; chromedriver := [ {| platform := tag; url := u |} ] |} ] ->
     get_platform_name (system w) = Ok tag ->
     (fst (fetch_closest_chromedriver_url p w) = Ok (JStr u, Some v)
      <-> exists rest, v = p +:+ rest)) /\
  startswith "128.0.1" "12" = true /\
  startswith "12.0.0" "12" = true.
Proof.
  split; [exact startswith_prefix|]. split; [|split; reflexivity].
  intros w data tag p v u Hs Hm Ht.
  rewrite (lookup_served p tag w data _ Hs Hm Ht).
  rewrite <- startswith_prefix. cbn [first_match version chromedriver List.find].
  unfold for_platform. cbn [platform url]. rewrite str_contains_self.
  destruct (startswith v p); cbn [fst]; split; intros H; try reflexivity; discriminate.
Qed.

Lemma prefix_match_is_raw_witness :
  fst (fetch_closest_chromedriver_url "12" short_prefix_world)
    = Ok (JStr "https://cft.test/128.0.1/linux64.zip", Some "128.0.1")
  <-> exists rest, "128.0.1" = "12" +:+ rest.
Proof.
  apply (proj1 (proj2 prefix_match_is_raw) short_prefix_world
           (manifest_json [ {| version := "128.0.1";
                               chromedriver :=
                                 [ {| platform := "linux64";
                                      url := "https://cft.test/128.0.1/linux64.zip" |} ] |} ])
           "linux64" "12" "128.0.1" "https://cft.test/128.0.1/linux64.zip").
  - eexists. repeat split.
  - apply manifest_json_shape.
  - reflexivity.
Defined.

(* ===================================================================== *)
(** ** No exception leaves the script *)
(* ===================================================================== *)

Lemma try_except_returns {A} (body : M A) handler :
  (forall e w, exists a w', handler e w = (Ok a, w')) ->
  forall w, exists a w', try_except body handler w = (Ok a, w').
Proof.
  intros Hh w. unfold try_except.
  destruct (body w) as [[a|e] w']; [eauto | apply Hh].
Qed.

Lemma lookup_handler_returns e w :
  lookup_handler e w = (Ok None, add_out (ErrorReport e) w) \/
  lookup_handler e w = (Ok None, add_out (RequestErrorReport e) w).
Proof. destruct e; (left; reflexivity) || (right; reflexivity). Qed.

Lemma provision_handler_returns e w :
  exists r, provision_handler e w = (Ok "", add_out r w).
Proof. destruct e; eexists; reflexivity. Qed.

Lemma fetch_returns prefix w :
  exists r w', fetch_closest_chromedriver_url prefix w = (Ok r, w').
Proof.
  unfold fetch_closest_chromedriver_url, bind.
  destruct (try_except_returns (lookup_body prefix) lookup_handler) with (w := w)
    as (found & w' & ->).
  { intros e w0. destruct (lookup_handler_returns e w0) as [-> | ->]; eauto. }
  destruct found as [[u v]|]; eauto.
Qed.

Lemma download_returns prefix w :
  exists r w', download_and_update_chromedriver prefix w = (Ok r, w').
Proof.
  unfold download_and_update_chromedriver, bind at 1.
  destruct (fetch_returns prefix w) as ([driver_url actual_version] & w1 & ->).
  destruct (truthy driver_url); cbn [negb].
  - unfold bind, ask, print.
    apply try_except_returns. intros e w0.
    destruct (provision_handler_returns e w0) as (r & ->). eauto.
  - eexists _, _. reflexivity.
Qed.

(** The lookup on a host whose platform is not supported: the body of the
    [try] raises, whatever the server does. *)
Lemma lookup_body_unsupported prefix w e :
  get_platform_name (system w) = Raise e ->
  exists e' w', lookup_body prefix w = (Raise e', w').
Proof.
  intros He. unfold lookup_body, bind at 1, requests_get.
  destruct (http w json_url) as [err|r]; [eauto|].
  unfold bind at 1, raise_for_status.
  destruct ((400 <=? status_code r) && (status_code r <? 600)); [unfold raise; eauto|].
  unfold ret at 1, bind at 1, response_json.
  destruct (content r); try (unfold raise; eauto).
  unfold ret at 1, bind at 1, ask, bind at 1, lift at 1. rewrite He. eauto.
Qed.

Lemma fetch_unsupported prefix w e :
  get_platform_name (system w) = Raise e ->
  exists w', fetch_closest_chromedriver_url prefix w = (Ok (JNull, None), w').
Proof.
  intros He. destruct (lookup_body_unsupported prefix w e He) as (e' & w' & Hb).
  unfold fetch_closest_chromedriver_url, bind, try_except. rewrite Hb.
  destruct (lookup_handler_returns e' w') as [-> | ->]; eauto.
Qed.

Lemma download_no_driver prefix w w' :
  fetch_closest_chromedriver_url prefix w = (Ok (JNull, None), w') ->
  download_and_update_chromedriver prefix w = (Ok "", add_out (NoDriverFor prefix) w').
Proof.
  intros H. unfold download_and_update_chromedriver, bind at 1. rewrite H. reflexivity.
Qed.

Lemma download_resolved prefix w u v w1 :
  fetch_closest_chromedriver_url prefix w = (Ok (u, Some v), w1) ->
  truthy u = true ->
  download_and_update_chromedriver prefix w =
    try_except
      (provision_body u v (zip_path_of (script_dir w1) v) (extract_dir_of (script_dir w1) v))
      provision_handler (add_out (Downloading v) w1).
Proof.
  intros Hres Hu. unfold download_and_update_chromedriver, bind at 1. rewrite Hres.
  cbn [format_version]. now rewrite Hu.
Qed.

(** C2, as the code has it.  The platform-detection error is raised inside
    the [try] of the lookup, once the manifest is fetched and decoded, and
    the catch-all clause catches it: it is reported, the lookup returns
    (None, None) and the driver update returns the empty string.  No
    exception leaves the driver update on any host: whatever the body of
    either [try] raises is reported and gives (None, None), or the empty
    string. *)
Theorem no_exception_escapes :
  (forall prefix w, exists r w', download_and_update_chromedriver prefix w = (Ok r, w')) /\
  (forall prefix w e,
     get_platform_name (system w) = Raise e ->
     fst (fetch_closest_chromedriver_url prefix w) = Ok (JNull, None) /\
     fst (download_and_update_chromedriver prefix w) = Ok "") /\
  (forall prefix w data e,
     manifest_served w data ->
     get_platform_name (system w) = Raise e ->
     download_and_update_chromedriver prefix w =
       (Ok "", add_out (NoDriverFor prefix) (add_out (ErrorReport e) w))) /\
  (forall prefix w e w',
     lookup_body prefix w = (Raise e, w') ->
     exists r, (r = ErrorReport e \/ r = RequestErrorReport e) /\
       fetch_closest_chromedriver_url prefix w = (Ok (JNull, None), add_out r w')) /\
  (forall prefix w u v w1 e w',
     fetch_closest_chromedriver_url prefix w = (Ok (u, Some v), w1) ->
     truthy u = true ->
     provision_body u v (zip_path_of (script_dir w1) v) (extract_dir_of (script_dir w1) v)
       (add_out (Downloading v) w1) = (Raise e, w') ->
     exists r, (r = ErrorReport e \/ r = DownloadErrorReport e \/ r = BadZipReport) /\
       download_and_update_chromedriver prefix w = (Ok "", add_out r w')).
Proof.
  split; [exact download_returns|]. split; [|split; [|split]].
  - intros prefix w e He.
    destruct (fetch_unsupported prefix w e He) as (w' & Hf).
    rewrite (download_no_driver _ _ _ Hf), Hf. split; reflexivity.
  - intros prefix w data e Hserved He.
    apply download_no_driver.
    unfold fetch_closest_chromedriver_url, bind at 1, try_except.
    rewrite (lookup_body_fetched _ _ _ Hserved), He.
    assert (Hr : exists s, e = RuntimeError s).
    { unfold get_platform_name in He.
      repeat match type of He with (if ?c then _ else _) = _ => destruct c end;
        try discriminate. injection He as <-. eauto. }
    destruct Hr as [s ->]. reflexivity.
  - intros prefix w e w' Hb.
    unfold fetch_closest_chromedriver_url, bind, try_except. rewrite Hb.
    destruct (lookup_handler_returns e w') as [-> | ->]; eauto.
  - intros prefix w u v w1 e w' Hres Hu Hb.
    rewrite (download_resolved _ _ _ _ _ Hres Hu). unfold try_except. rewrite Hb.
    destruct e; eexists; (split; [|reflexivity]); auto.
Qed.

Lemma no_exception_escapes_witness :
  fst (fetch_closest_chromedriver_url "128" freebsd_world) = Ok (JNull, None) /\
  fst (download_and_update_chromedriver "128" freebsd_world) = Ok "".
Proof.
  apply (proj1 (proj2 no_exception_escapes) "128" freebsd_world (RuntimeError "FreeBSD")).
  reflexivity.
Defined.

(** C2 as stated fails: on a FreeBSD host the platform-detection error is
    raised and the driver update returns the empty string; nothing is raised
    past it. *)
Lemma unsupported_platform_is_caught :
  get_platform_name (system freebsd_world) = Raise (RuntimeError "FreeBSD") /\
  fst (download_and_update_chromedriver "128" freebsd_world) = Ok "" /\
  out (snd (download_and_update_chromedriver "128" freebsd_world)) =
    [NoDriverFor "128"; ErrorReport (RuntimeError "FreeBSD")].
Proof. repeat split. Qed.

(* ===================================================================== *)
(** ** A failed manifest GET *)
(* ===================================================================== *)

Lemma fetch_manifest_failure prefix w e :
  manifest_get_fails w e ->
  fetch_closest_chromedriver_url prefix w =
    (Ok (JNull, None), add_out (RequestErrorReport e) w).
Proof.
  intros H. unfold fetch_closest_chromedriver_url, bind at 1, try_except, lookup_body.
  unfold bind at 1, requests_get.
  destruct H as [err Hget | r Hget Hstatus | r Hget Hstatus Hbody]; rewrite Hget.
  - reflexivity.
  - unfold bind at 1, raise_for_status.
    replace ((400 <=? status_code r) && (status_code r <? 600)) with true by lia.
    reflexivity.
  - unfold bind at 1, raise_for_status.
    replace ((400 <=? status_code r) && (status_code r <? 600)) with false by lia.
    unfold ret at 1, bind at 1, response_json.
    destruct (content r) as [bytes|data|members] eqn:Hc; try reflexivity.
    now destruct (Hbody data).
Qed.

(** C6, as the code has it.  When the manifest GET fails (no connection, a
    timeout, or a status from 400 to 599, the ones [raise_for_status]
    refuses) or the body is not JSON, the lookup catches the error, reports
    it and returns (None, None), and the driver update returns the empty
    string; nothing is raised. *)
Theorem manifest_failure_gives_empty prefix w e :
  manifest_get_fails w e ->
  fetch_closest_chromedriver_url prefix w =
    (Ok (JNull, None), add_out (RequestErrorReport e) w) /\
  download_and_update_chromedriver prefix w =
    (Ok "", add_out (NoDriverFor prefix) (add_out (RequestErrorReport e) w)).
Proof.
  intros H. pose proof (fetch_manifest_failure prefix w e H) as Hf.
  split; [exact Hf | exact (download_no_driver _ _ _ Hf)].
Qed.

Lemma manifest_failure_gives_empty_witness :
  fetch_closest_chromedriver_url "128" offline_world =
    (Ok (JNull, None),
     add_out (RequestErrorReport (RequestException ConnectionError)) offline_world) /\
  download_and_update_chromedriver "128" offline_world =
    (Ok "", add_out (NoDriverFor "128")
              (add_out (RequestErrorReport (RequestException ConnectionError)) offline_world)).
Proof.
  apply (manifest_failure_gives_empty "128" offline_world (RequestException ConnectionError)).
  apply get_raises. reflexivity.
Defined.

(** C6 as stated fails for a status that is neither 2xx nor an error status:
    a response with status 300 and the manifest as its body is read as a
    success, the lookup returns a match and the driver is provisioned. *)
Lemma status_300_is_not_a_failure :
  http multiple_choices_world json_url =
    GetReturns (Response 300 (JsonDoc (manifest_json example_manifest))) /\
  fst (fetch_closest_chromedriver_url "128" multiple_choices_world) =
    Ok (JStr "https://cft.test/128.0.1/linux64.zip", Some "128.0.1") /\
  fst (download_and_update_chromedriver "128" multiple_choices_world) =
    Ok "/opt/tool/chromedriver_128.0.1/chromedriver".
Proof. repeat split. Qed.


(* ===================================================================== *)
(** ** What a run may change *)
(* ===================================================================== *)

Section Frame.

Context {A B : Type}.
Implicit Types (S : string -> Prop).

Lemma same_host_refl w : same_host w w.
Proof. repeat split. Qed.

Lemma same_host_trans w1 w2 w3 : same_host w1 w2 -> same_host w2 w3 -> same_host w1 w3.
Proof. intros (?&?&?&?) (?&?&?&?). repeat split; congruence. Qed.

Lemma within_ret S (a : A) : writes_within S (ret a).
Proof. intros w r w' [= <- <-]. split; [apply same_host_refl | reflexivity]. Qed.

Lemma within_raise S e : writes_within S (@raise A e).
Proof. intros w r w' [= <- <-]. split; [apply same_host_refl | reflexivity]. Qed.

Lemma within_lift S (x : result A) : writes_within S (lift x).
Proof. intros w r w' [= <- <-]. split; [apply same_host_refl | reflexivity]. Qed.

Lemma within_ask S (field : world -> A) : writes_within S (ask field).
Proof. intros w r w' [= <- <-]. split; [apply same_host_refl | reflexivity]. Qed.

Lemma within_bind S (m : M A) (k : A -> M B) :
  writes_within S m -> (forall a, writes_within S (k a)) -> writes_within S (bind m k).
Proof.
  intros Hm Hk w r w'. unfold bind.
  destruct (m w) as [[a|e] w1] eqn:E; intros H.
  - destruct (Hm _ _ _ E) as [Hh1 Hf1], (Hk a _ _ _ H) as [Hh2 Hf2].
    split; [eapply same_host_trans; eassumption|].
    intros p Hp. now rewrite Hf2, Hf1.
  - injection H as <- <-. destruct (Hm _ _ _ E) as [Hh1 Hf1]. now split.
Qed.

Lemma within_try S (body : M A) handler :
  writes_within S body -> (forall e, writes_within S (handler e)) ->
  writes_within S (try_except body handler).
Proof.
  intros Hb Hh w r w'. unfold try_except.
  destruct (body w) as [[a|e] w1] eqn:E; intros H.
  - injection H as <- <-. exact (Hb _ _ _ E).
  - destruct (Hb _ _ _ E) as [Hh1 Hf1], (Hh e _ _ _ H) as [Hh2 Hf2].
    split; [eapply same_host_trans; eassumption|].
    intros p Hp. now rewrite Hf2, Hf1.
Qed.

Lemma within_mono S S' (m : M A) :
  (forall p, S p -> S' p) -> writes_within S m -> writes_within S' m.
Proof.
  intros Hs Hm w r w' H. destruct (Hm _ _ _ H) as [Hh Hf].
  split; [exact Hh|]. intros p Hp. apply Hf. intros Hsp. apply Hp, Hs, Hsp.
Qed.

End Frame.

Lemma within_print S r : writes_within S (print r).
Proof. intros w x w' [= <- <-]. split; [repeat split | reflexivity]. Qed.

Lemma within_requests_get S u : writes_within S (requests_get u).
Proof.
  intros w r w'. unfold requests_get.
  destruct u; try (intros [= <- <-]; split; [apply same_host_refl | reflexivity]).
  destruct (http w s); intros [= <- <-]; (split; [apply same_host_refl | reflexivity]).
Qed.

Lemma within_raise_for_status S r : writes_within S (raise_for_status r).
Proof.
  unfold raise_for_status.
  destruct ((400 <=? status_code r) && (status_code r <? 600));
    [apply within_raise | apply within_ret].
Qed.

Lemma within_response_json S r : writes_within S (response_json r).
Proof.
  unfold response_json. destruct (content r); (apply within_raise || apply within_ret).
Qed.

Lemma within_os_walk S top : writes_within S (os_walk top).
Proof. intros w r w' [= <- <-]. split; [apply same_host_refl | reflexivity]. Qed.

Lemma within_write_file path data : writes_within (eq path) (write_file path data).
Proof.
  intros w r w'. unfold write_file.
  destruct (open_error w path); intros [= <- <-];
    (split; [repeat split|]); intros p Hp; cbn [fs set_fs];
    try reflexivity; now rewrite lookup_insert_ne.
Qed.

Lemma within_os_remove path : writes_within (eq path) (os_remove path).
Proof.
  intros w r w'. unfold os_remove.
  destruct (fs w !! path) as [[d|entries]|]; intros [= <- <-];
    (split; [repeat split|]); intros p Hp; cbn [fs set_fs];
    try reflexivity; now rewrite lookup_delete_ne.
Qed.

Lemma within_extract_member path m : writes_within (eq path) (extract_member path m).
Proof.
  intros w r w'. unfold extract_member.
  destruct (String.eqb (filename m) "").
  { intros [= <- <-]. split; [apply same_host_refl | reflexivity]. }
  destruct (is_dir m); destruct (put _ _ _); intros [= <- <-];
    (split; [repeat split|]); intros p Hp; cbn [fs set_fs];
    try reflexivity; now rewrite lookup_insert_ne.
Qed.

Lemma within_extract_members path members :
  writes_within (eq path) (extract_members path members).
Proof.
  induction members as [|m members IH]; cbn [extract_members].
  - apply within_ret.
  - apply within_bind; [apply within_extract_member | intros _; exact IH].
Qed.

Lemma within_extractall zip_path extract_dir :
  writes_within (eq extract_dir) (extractall zip_path extract_dir).
Proof.
  intros w r w'. unfold extractall.
  destruct (fs w !! zip_path) as [[[bytes|value|members]|entries]|];
    try (intros [= <- <-]; split; [apply same_host_refl | reflexivity]).
  apply within_extract_members.
Qed.

(** The lookup changes nothing but the printed text. *)
Lemma within_scan_downloads S tag v downloads :
  writes_within S (scan_downloads tag v downloads).
Proof.
  induction downloads as [|d downloads IH]; cbn [scan_downloads].
  - apply within_ret.
  - apply within_bind; [apply within_lift|]. intros platform.
    apply within_bind; [apply within_lift|]. intros [|]; [|exact IH].
    apply within_bind; [apply within_lift|]. intros url.
    apply within_bind; [apply within_print|]. intros _. apply within_ret.
Qed.

Lemma within_scan_versions S prefix tag versions :
  writes_within S (scan_versions prefix tag versions).
Proof.
  induction versions as [|v versions IH]; cbn [scan_versions].
  - apply within_ret.
  - apply within_bind; [apply within_lift|]. intros value.
    apply within_bind; [apply within_lift|]. intros version.
    destruct (startswith version prefix); [|exact IH].
    apply within_bind; [apply within_lift|]. intros downloads.
    apply within_bind; [apply within_lift|]. intros drivers.
    apply within_bind; [apply within_lift|]. intros items.
    apply within_bind; [apply within_scan_downloads|]. intros [hit|]; [apply within_ret | exact IH].
Qed.

Lemma within_fetch S prefix : writes_within S (fetch_closest_chromedriver_url prefix).
Proof.
  unfold fetch_closest_chromedriver_url.
  apply within_bind.
  - apply within_try.
    + unfold lookup_body.
      apply within_bind; [apply within_requests_get|]. intros response.
      apply within_bind; [apply within_raise_for_status|]. intros _.
      apply within_bind; [apply within_response_json|]. intros data.
      apply within_bind; [apply within_ask|]. intros system_name.
      apply within_bind; [apply within_lift|]. intros platform_name.
      apply within_bind; [apply within_print|]. intros _.
      apply within_bind; [apply within_lift|]. intros versions.
      apply within_bind; [apply within_lift|]. intros items.
      apply within_bind; [apply within_scan_versions|]. intros [hit|]; [apply within_ret|].
      apply within_bind; [apply within_print|]. intros _. apply within_ret.
    + intros e. destruct e; cbn [lookup_handler];
        (apply within_bind; [apply within_print | intros _; apply within_ret]).
  - intros [[u v]|]; apply within_ret.
Qed.

Lemma fetch_frame prefix w r w' :
  fetch_closest_chromedriver_url prefix w = (r, w') ->
  same_host w w' /\ fs w' = fs w.
Proof.
  intros H. destruct (within_fetch (fun _ => False) prefix _ _ _ H) as [Hh Hf].
  split; [exact Hh|]. apply map_eq. intros p. apply Hf. tauto.
Qed.

Lemma within_provision_body u v zip_path extract_dir :
  writes_within (fun p => zip_path = p \/ extract_dir = p)
    (provision_body u v zip_path extract_dir).
Proof.
  unfold provision_body.
  apply within_bind; [apply within_requests_get|]. intros response.
  apply within_bind; [apply within_raise_for_status|]. intros _.
  apply within_bind.
  { eapply within_mono; [|apply within_write_file]. intros p; cbn; auto. }
  intros _.
  apply within_bind; [apply within_print|]. intros _.
  apply within_bind; [apply within_print|]. intros _.
  apply within_bind.
  { eapply within_mono; [|apply within_extractall]. intros p; cbn; auto. }
  intros _.
  apply within_bind; [apply within_os_walk|]. intros triples.
  destruct (find_driver triples) as [driver_file|].
  - apply within_bind.
    { eapply within_mono; [|apply within_os_remove]. intros p; cbn; auto. }
    intros _. apply within_bind; [apply within_print | intros _; apply within_ret].
  - apply within_bind; [apply within_print | intros _; apply within_ret].
Qed.



(* ===================================================================== *)
(** ** The search of the extracted tree *)
(* ===================================================================== *)

(** Induction on a tree, with the hypothesis for every entry of a
    directory. *)
Lemma node_tree_ind (P : node -> Prop) :
  (forall data, P (File data)) ->
  (forall entries, Forall (fun e => P (snd e)) entries -> P (Dir entries)) ->
  forall n, P n.
Proof.
  intros Hfile Hdir. fix IH 1. intros [data|entries].
  - apply Hfile.
  - apply Hdir. induction entries as [|[name child] entries IHentries]; constructor.
    + apply IH.
    + exact IHentries.
Qed.

Lemma no_driver_dir entries : no_driver (Dir entries) = forallb entry_clean entries.
Proof.
  cbn [no_driver].
  induction entries as [|[name [data|sub]] entries IH]; cbn [forallb]; [reflexivity|..];
    now rewrite IH.
Qed.

Lemma scan_files_none root files :
  scan_files root files = None <->
  forall file, In file files -> startswith file "chromedriver" = false.
Proof.
  induction files as [|file files IH]; cbn [scan_files].
  - split; [intros _ f [] | reflexivity].
  - destruct (startswith file "chromedriver") eqn:E.
    + split; [discriminate|]. intros H. rewrite (H file (or_introl eq_refl)) in E. discriminate.
    + rewrite IH. split.
      * intros H f [<-|Hf]; [exact E | exact (H f Hf)].
      * intros H f Hf. apply H. now right.
Qed.

Lemma scan_files_some root files path :
  scan_files root files = Some path ->
  exists before file after,
    files = (before ++ file :: after)%list /\
    (forall f, In f before -> startswith f "chromedriver" = false) /\
    startswith file "chromedriver" = true /\
    path = path_join root file.
Proof.
  induction files as [|file files IH]; cbn [scan_files]; [discriminate|].
  destruct (startswith file "chromedriver") eqn:E.
  - intros [= <-]. exists [], file, files. repeat split; [intros f []|exact E].
  - intros H. destruct (IH H) as (before & f & after & -> & Hb & Hf & ->).
    exists (file :: before), f, after. repeat split; [|exact Hf].
    intros g [<-|Hg]; [exact E | exact (Hb g Hg)].
Qed.

Lemma scan_files_nonempty root files path :
  scan_files root files = Some path -> String.eqb path "" = false.
Proof.
  intros H. destruct (scan_files_some _ _ _ H) as (before & file & after & _ & _ & Hf & ->).
  apply String.eqb_neq, path_join_nonempty. eapply startswith_cons_nonempty. exact Hf.
Qed.


Lemma find_driver_none triples :
  (forall rf, In rf (walk_files triples) -> startswith (snd rf) "chromedriver" = false) ->
  find_driver triples = None.
Proof.
  induction triples as [|[[top dirs] files] triples IH]; intros H; [reflexivity|].
  cbn [find_driver]. cbn [walk_files flat_map] in H.
  replace (scan_files top files) with (@None string).
  - apply IH. intros rf Hin. apply H. apply in_or_app. now right.
  - symmetry. apply scan_files_none. intros f Hf.
    apply (H (top, f)). apply in_or_app. left. now apply in_map.
Qed.

(** A tree without driver files has none among the files of its walk. *)
Lemma walk_clean n :
  no_driver n = true ->
  forall top rf,
    In rf (walk_files (walk_node top n)) -> startswith (snd rf) "chromedriver" = false.
Proof.
  induction n as [data|entries IH] using node_tree_ind; intros Hn top rf Hin.
  - destruct Hin.
  - rewrite no_driver_dir, forallb_forall in Hn.
    cbn [walk_node walk_files flat_map] in Hin.
    apply in_app_or in Hin as [Hin | Hin].
    + apply in_map_iff in Hin as (f & <- & Hf). cbn [snd].
      apply in_flat_map in Hf as ([name child] & He & Hf).
      specialize (Hn _ He). unfold entry_clean in Hn. cbn [fst snd] in *.
      destruct child; [|destruct Hf].
      destruct Hf as [<-|[]]. now apply negb_true_iff.
    + apply in_flat_map in Hin as (t & Ht & Hin).
      apply in_flat_map in Ht as ([name child] & He & Ht).
      rewrite Forall_forall in IH.
      assert (Hchild : no_driver child = true).
      { specialize (Hn _ He). unfold entry_clean in Hn. cbn [fst snd] in Hn.
        destruct child; [reflexivity | exact Hn]. }
      apply (IH (name, child) (proj2 (list_elem_of_In _ _) He) Hchild (path_join top name) rf).
      apply in_flat_map. exists t. split; [exact Ht | exact Hin].
Qed.

(** Listing a directory in another order neither adds nor hides a file. *)
Lemma forallb_insert_ranked {A} (rank : A -> nat) (f : A -> bool) x l :
  forallb f (insert_ranked rank x l) = f x && forallb f l.
Proof.
  induction l as [|y l IH]; cbn [insert_ranked forallb]; [reflexivity|].
  destruct (rank x <=? rank y)%nat; cbn [forallb]; [reflexivity|].
  rewrite IH. destruct (f x), (f y); reflexivity.
Qed.

Lemma forallb_sort_ranked {A} (rank : A -> nat) (f : A -> bool) l :
  forallb f (sort_ranked rank l) = forallb f l.
Proof.
  induction l as [|x l IH]; [reflexivity|].
  cbn [sort_ranked fold_right]. fold (sort_ranked rank l).
  now rewrite forallb_insert_ranked, IH.
Qed.

Lemma insert_ranked_map {A B} (g : A -> B) (rank : B -> nat) x l :
  insert_ranked rank (g x) (map g l) =
  map g (insert_ranked (fun a => rank (g a)) x l).
Proof.
  induction l as [|y l IH]; [reflexivity|].
  cbn [map insert_ranked]. destruct (rank (g x) <=? rank (g y))%nat; [reflexivity|].
  cbn [map]. now rewrite IH.
Qed.

Lemma sort_ranked_map {A B} (g : A -> B) (rank : B -> nat) l :
  sort_ranked rank (map g l) = map g (sort_ranked (fun a => rank (g a)) l).
Proof.
  induction l as [|x l IH]; [reflexivity|].
  cbn [map sort_ranked fold_right].
  fold (sort_ranked rank (map g l)). fold (sort_ranked (fun a => rank (g a)) l).
  now rewrite IH, insert_ranked_map.
Qed.

Lemma no_driver_scanned order n :
  forall top, no_driver (scanned order top n) = no_driver n.
Proof.
  induction n as [data|entries IH] using node_tree_ind; intros top; [reflexivity|].
  cbn [scanned]. rewrite !no_driver_dir, forallb_sort_ranked.
  induction IH as [|[name child] entries Hchild _ IHentries]; [reflexivity|].
  cbn [map forallb fst snd]. rewrite IHentries. f_equal.
  unfold entry_clean. cbn [fst snd] in *.
  destruct child as [data|sub]; [reflexivity|].
  rewrite <- (Hchild (path_join top name)). reflexivity.
Qed.

(* ===================================================================== *)
(** ** Extraction keeps a clean tree clean *)
(* ===================================================================== *)

Lemma last_default {X} (l : list X) x d : last l = Some x -> List.last l d = x.
Proof.
  induction l as [|a l IH]; [discriminate|].
  destruct l as [|b l]; [now intros [= ->]|].
  intros H. apply IH. exact H.
Qed.

Lemma last_cons_default {X} (x : X) l d d' : List.last (x :: l) d = List.last (x :: l) d'.
Proof.
  revert x. induction l as [|y l IH]; intros x; [reflexivity|].
  change (List.last (y :: l) d = List.last (y :: l) d'). apply IH.
Qed.

Lemma entry_clean_root n : entry_clean ("", n) = no_driver n.
Proof. destruct n; reflexivity. Qed.

Lemma alter_entry_clean name f entries entries' :
  alter_entry name f entries = Some entries' ->
  forallb entry_clean entries = true ->
  (forall target n',
     f target = Some n' ->
     match target with Some n => entry_clean (name, n) = true | None => True end ->
     entry_clean (name, n') = true) ->
  forallb entry_clean entries' = true.
Proof.
  intros Ha Hc Hf. revert entries' Ha Hc.
  induction entries as [|[k n] entries IH]; intros entries' Ha Hc; cbn [alter_entry] in Ha.
  - destruct (f None) as [n'|] eqn:E; [|discriminate]. injection Ha as <-.
    cbn [forallb]. now rewrite (Hf None n' E I).
  - cbn [forallb] in Hc. apply andb_prop in Hc as [Hk Hrest].
    destruct (String.eqb k name) eqn:Ek.
    + apply String.eqb_eq in Ek. subst k.
      destruct (f (Some n)) as [n'|] eqn:E; [|discriminate]. injection Ha as <-.
      cbn [forallb]. now rewrite (Hf (Some n) n' E Hk), Hrest.
    + destruct (alter_entry name f entries) as [rest'|] eqn:E; [|discriminate].
      injection Ha as <-. cbn [forallb]. now rewrite Hk, (IH rest' eq_refl Hrest).
Qed.

Lemma put_clean parts l :
  forall name target n',
    put parts l target = Some n' ->
    match target with Some n => entry_clean (name, n) = true | None => True end ->
    match l with
    | LeafDir => True
    | LeafFile _ => startswith (List.last parts name) "chromedriver" = false
    end ->
    entry_clean (name, n') = true.
Proof.
  induction parts as [|part parts IH]; intros name target n' Hput Ht Hl.
  - cbn [put] in Hput.
    destruct l as [|data].
    + destruct target as [[d|entries]|]; try discriminate; injection Hput as <-;
        [exact Ht | reflexivity].
    + assert (n' = File data) as ->.
      { destruct target as [[d|entries]|]; try discriminate; now injection Hput. }
      unfold entry_clean. cbn [fst snd List.last] in *. now rewrite Hl.
  - cbn [put] in Hput.
    assert (Hl' : match l with
                  | LeafDir => True
                  | LeafFile _ => startswith (List.last parts part) "chromedriver" = false
                  end).
    { destruct l; [exact I|]. destruct parts as [|q parts]; [exact Hl|].
      rewrite (last_cons_default q parts part name). exact Hl. }
    destruct target as [[d|entries]|]; [discriminate|..].
    + destruct (alter_entry part (put parts l) entries) as [entries'|] eqn:E; [|discriminate].
      injection Hput as <-. unfold entry_clean in Ht |- *. cbn [fst snd] in *.
      rewrite no_driver_dir in Ht |- *.
      apply (alter_entry_clean _ _ _ _ E Ht).
      intros target n' Hp Hc. exact (IH part target n' Hp Hc Hl').
    + destruct (put parts l None) as [n|] eqn:E; [|discriminate].
      injection Hput as <-. unfold entry_clean. cbn [fst snd].
      rewrite no_driver_dir. cbn [forallb]. now rewrite (IH part None n E I Hl').
Qed.

Lemma put_clean_root parts l target n' :
  put parts l target = Some n' ->
  target_clean target = true ->
  match l with
  | LeafDir => True
  | LeafFile _ => forall name, last parts = Some name -> startswith name "chromedriver" = false
  end ->
  no_driver n' = true.
Proof.
  intros Hput Ht Hl. rewrite <- entry_clean_root.
  apply (put_clean parts l "" target n' Hput).
  - destruct target as [n|]; [|exact I]. now rewrite entry_clean_root.
  - destruct l; [exact I|]. destruct (last parts) as [name|] eqn:Hlast.
    + rewrite (last_default _ _ _ Hlast). now apply Hl.
    + apply last_None in Hlast. now subst parts.
Qed.

Lemma extract_member_clean path m w r w' :
  extract_member path m w = (r, w') ->
  target_clean (fs w !! path) = true ->
  member_clean m = true ->
  target_clean (fs w' !! path) = true.
Proof.
  unfold extract_member, member_clean, member_file_name. intros H Ht Hm.
  destruct (String.eqb (filename m) ""); [injection H as <- <-; exact Ht|].
  destruct (is_dir m).
  - destruct (put _ _ _) as [n|] eqn:E; injection H as <- <-; [|exact Ht].
    cbn [fs set_fs]. rewrite lookup_insert_eq. cbn [target_clean].
    exact (put_clean_root _ _ _ _ E Ht I).
  - destruct (put _ _ _) as [n|] eqn:E; injection H as <- <-; [|exact Ht].
    cbn [fs set_fs]. rewrite lookup_insert_eq. cbn [target_clean].
    apply (put_clean_root _ _ _ _ E Ht).
    intros name Hlast. rewrite Hlast in Hm. now apply negb_true_iff.
Qed.

Lemma extract_members_clean path members :
  forallb member_clean members = true ->
  forall w r w',
    extract_members path members w = (r, w') ->
    target_clean (fs w !! path) = true ->
    target_clean (fs w' !! path) = true.
Proof.
  induction members as [|m members IH]; intros Hm w r w' H Ht.
  - injection H as <- <-. exact Ht.
  - cbn [forallb] in Hm. apply andb_prop in Hm as [Hm Hms].
    cbn [extract_members] in H. unfold bind in H.
    destruct (extract_member path m w) as [[[]|e] w1] eqn:E.
    + apply (IH Hms w1 r w' H). exact (extract_member_clean _ _ _ _ _ E Ht Hm).
    + injection H as <- <-. exact (extract_member_clean _ _ _ _ _ E Ht Hm).
Qed.


(* ===================================================================== *)
(** ** The download, the extraction and the archive *)
(* ===================================================================== *)

Lemma find_driver_nonempty triples path : find_driver triples = Some path -> path <> "".
Proof.
  induction triples as [|[[top dirs] files] triples IH]; cbn [find_driver]; [discriminate|].
  destruct (scan_files top files) as [p|]; [|exact IH].
  destruct (String.eqb p "") eqn:E; [exact IH|].
  intros [= <-]. now apply String.eqb_neq.
Qed.

(** Whether a file can be made depends on the script directory and on what
    is on disk. *)
Lemma open_error_same w w' p :
  script_dir w' = script_dir w -> fs w' = fs w -> open_error w' p = open_error w p.
Proof. intros Hd Hf. unfold open_error. now rewrite Hd, Hf. Qed.

Lemma open_error_kind w p e :
  open_error w p = Some e -> e = ValueError \/ e = OSError.
Proof.
  unfold open_error.
  destruct (has_char _ p); [intros [= <-]; now left|].
  destruct (negb _); [intros [= <-]; now right|].
  destruct (is_directory _); [intros [= <-]; now right | discriminate].
Qed.

Section Provision.

Variables (prefix : string) (w w1 : world) (u : json) (v : string) (c : blob).

Let zip_path := zip_path_of (script_dir w) v.
Let extract_dir := extract_dir_of (script_dir w) v.

(** The lookup resolved the driver [(u, v)], the GET of [u] gives the bytes
    [c], and the archive file can be made. *)
Hypothesis resolved : fetch_closest_chromedriver_url prefix w = (Ok (u, Some v), w1).
Hypothesis usable : truthy u = true.
Hypothesis served : archive_served w u c.
Hypothesis writable : open_error w zip_path = None.

Lemma resolved_frame : same_host w w1 /\ fs w1 = fs w.
Proof. exact (fetch_frame _ _ _ _ resolved). Qed.

Lemma archive_written_fs :
  fs (archive_written v c w1) = <[zip_path := File c]> (fs w).
Proof.
  destruct resolved_frame as [(_ & _ & Hd & _) Hf].
  unfold archive_written. cbn [fs add_out set_fs]. now rewrite Hd, Hf.
Qed.

Lemma archive_written_zip : fs (archive_written v c w1) !! zip_path = Some (File c).
Proof. rewrite archive_written_fs. apply lookup_insert_eq. Qed.

Lemma archive_written_extract_dir :
  fs (archive_written v c w1) !! extract_dir = fs w !! extract_dir.
Proof.
  rewrite archive_written_fs. apply lookup_insert_ne, zip_path_not_extract_dir.
Qed.

(** The run up to the extraction: the archive is written at [zip_path]. *)
Lemma download_written :
  download_and_update_chromedriver prefix w =
    try_except
      (extractall zip_path extract_dir ;;;
       triples <~ os_walk extract_dir ;;
       match find_driver triples with
       | Some driver_file =>
           os_remove zip_path ;;; print (DriverPath driver_file) ;;; ret driver_file
       | None => print DriverFileMissing ;;; ret ""
       end)
      provision_handler (archive_written v c w1).
Proof.
  destruct resolved_frame as [(Hs & Hh & Hd & _) Hf].
  destruct served as (s & r & -> & Hget & Hstatus & Hc).
  unfold download_and_update_chromedriver, bind at 1. rewrite resolved.
  cbn [format_version]. rewrite usable. cbn [negb].
  unfold bind at 1, ask. unfold bind at 1, print at 1.
  unfold try_except, provision_body.
  unfold bind at 1, requests_get. cbn [http add_out]. rewrite Hh, Hget.
  unfold bind at 1, raise_for_status. rewrite Hstatus. unfold ret at 1.
  unfold bind at 1, write_file. rewrite Hd. fold zip_path extract_dir.
  rewrite (open_error_same w (add_out (Downloading v) w1) zip_path Hd Hf), writable.
  cbn [fs add_out]. rewrite Hf.
  unfold bind at 1, print at 1; unfold bind at 1, print at 1.
  unfold archive_written; rewrite Hd, Hc, Hf; reflexivity.
Qed.

(** The extraction failed. *)
Lemma download_extract_error e w3 :
  extractall zip_path extract_dir (archive_written v c w1) = (Raise e, w3) ->
  exists r,
    download_and_update_chromedriver prefix w = (Ok "", add_out r w3) /\
    fs w3 !! zip_path = Some (File c).
Proof.
  intros E. rewrite download_written. unfold try_except, bind at 1. rewrite E.
  destruct (provision_handler_returns e w3) as (r & ->). exists r. split; [reflexivity|].
  destruct (within_extractall _ _ _ _ _ E) as [_ Hfs].
  rewrite Hfs by (intros H; symmetry in H; exact (zip_path_not_extract_dir _ _ H)).
  apply archive_written_zip.
Qed.

Lemma extractall_written :
  extractall zip_path extract_dir (archive_written v c w1) =
  match c with
  | ZipArchive members => extract_members extract_dir members (archive_written v c w1)
  | _ => (Raise BadZipFile, archive_written v c w1)
  end.
Proof. unfold extractall. rewrite archive_written_zip. destruct c; reflexivity. Qed.

(** The extraction leaves the listing order of the host as it is. *)
Lemma extractall_scandir r w3 :
  extractall zip_path extract_dir (archive_written v c w1) = (r, w3) ->
  scandir w3 = scandir w.
Proof.
  intros E. destruct (within_extractall _ _ _ _ _ E) as [(_ & _ & _ & Ho) _].
  destruct resolved_frame as [(_ & _ & _ & Ho1) _].
  rewrite Ho. exact Ho1.
Qed.

(** The extraction succeeded and the walk decides. *)
Lemma download_extracted w3 :
  extractall zip_path extract_dir (archive_written v c w1) = (Ok tt, w3) ->
  fs w3 !! zip_path = Some (File c) /\
  download_and_update_chromedriver prefix w =
    match find_driver match fs w3 !! extract_dir with
                      | Some tree =>
                          walk_node extract_dir (scanned (scandir w) extract_dir tree)
                      | None => []
                      end with
    | Some driver_file =>
        (Ok driver_file,
         add_out (DriverPath driver_file) (set_fs (delete zip_path (fs w3)) w3))
    | None => (Ok "", add_out DriverFileMissing w3)
    end.
Proof.
  intros E.
  assert (Hzip : fs w3 !! zip_path = Some (File c)).
  { destruct (within_extractall _ _ _ _ _ E) as [_ Hfs].
    rewrite Hfs by (intros H; symmetry in H; exact (zip_path_not_extract_dir _ _ H)).
    apply archive_written_zip. }
  split; [exact Hzip|].
  rewrite download_written. unfold try_except, bind at 1. rewrite E.
  unfold bind at 1, os_walk. rewrite (extractall_scandir _ _ E).
  destruct (find_driver _) as [driver_file|]; [|reflexivity].
  unfold bind at 1, os_remove. rewrite Hzip. reflexivity.
Qed.

(** After the write, whatever happens: either the result is the empty string
    and the archive is still there, or the result is a driver file found in
    the extracted tree and the archive is gone. *)
Lemma provision_outcome :
  exists w',
    (download_and_update_chromedriver prefix w = (Ok "", w') /\
     fs w' !! zip_path = Some (File c)) \/
    (exists driver_file tree,
       download_and_update_chromedriver prefix w = (Ok driver_file, w') /\
       driver_file <> "" /\
       fs w' !! zip_path = None /\
       fs w' !! extract_dir = Some tree /\
       find_driver (walk_node extract_dir (scanned (scandir w) extract_dir tree))
         = Some driver_file).
Proof.
  destruct (extractall zip_path extract_dir (archive_written v c w1)) as [[[]|e] w3] eqn:E.
  - destruct (download_extracted w3 E) as [Hzip ->].
    destruct (fs w3 !! extract_dir) as [tree|] eqn:Et.
    + destruct (find_driver (walk_node extract_dir (scanned (scandir w) extract_dir tree)))
        as [driver_file|] eqn:Ed.
      * eexists. right. exists driver_file, tree. split; [reflexivity|].
        split; [exact (find_driver_nonempty _ _ Ed)|]. cbn [fs add_out set_fs].
        split; [apply lookup_delete_eq|]. split; [|exact Ed].
        rewrite lookup_delete_ne by apply zip_path_not_extract_dir. exact Et.
      * eexists. left. split; [reflexivity | exact Hzip].
    + cbn [find_driver]. eexists. left. split; [reflexivity | exact Hzip].
  - destruct (download_extract_error e w3 E) as (r & -> & Hzip).
    eexists. left. split; [reflexivity | exact Hzip].
Qed.

End Provision.





(** C4.  When the archive extracts without error, no file named with the
    driver prefix is extracted and none was in the extraction directory
    before, the driver update returns the empty string and the archive is
    still on disk. *)
Theorem no_driver_file_archive_kept prefix w w1 u v members w3 :
  fetch_closest_chromedriver_url prefix w = (Ok (u, Some v), w1) ->
  truthy u = true ->
  archive_served w u (ZipArchive members) ->
  open_error w (zip_path_of (script_dir w) v) = None ->
  extract_members (extract_dir_of (script_dir w) v) members
    (archive_written v (ZipArchive members) w1) = (Ok tt, w3) ->
  forallb member_clean members = true ->
  target_clean (fs w !! extract_dir_of (script_dir w) v) = true ->
  download_and_update_chromedriver prefix w = (Ok "", add_out DriverFileMissing w3) /\
  fs (snd (download_and_update_chromedriver prefix w)) !! zip_path_of (script_dir w) v
    = Some (File (ZipArchive members)).
Proof.
  intros Hres Hu Hserved Hopen Hext Hmembers Hbefore.
  pose proof (extractall_written prefix w w1 u v (ZipArchive members) Hres Hserved) as Hall.
  cbv iota in Hall. rewrite Hext in Hall.
  destruct (download_extracted prefix w w1 u v _ Hres Hu Hserved Hopen w3 Hall) as [Hzip ->].
  assert (Hclean : target_clean (fs w3 !! extract_dir_of (script_dir w) v) = true).
  { apply (extract_members_clean _ _ Hmembers _ _ _ Hext).
    now rewrite (archive_written_extract_dir prefix w w1 u v _ Hres). }
  replace (find_driver _) with (@None string); [split; [reflexivity | exact Hzip]|].
  symmetry. destruct (fs w3 !! extract_dir_of (script_dir w) v) as [tree|]; [|reflexivity].
  apply find_driver_none. intros rf. apply walk_clean.
  rewrite no_driver_scanned. exact Hclean.
Qed.

Lemma no_driver_file_archive_kept_witness :
  fst (download_and_update_chromedriver "128" licence_world) = Ok "" /\
  fs (snd (download_and_update_chromedriver "128" licence_world))
    !! "/opt/tool/chromedriver_128.0.1.zip" = Some (File licence_archive).
Proof.
  destruct (no_driver_file_archive_kept "128" licence_world
              (add_out (FoundUrl (JStr "https://cft.test/128.0.1/linux64.zip"))
                 (add_out (PlatformName "linux64") licence_world))
              (JStr "https://cft.test/128.0.1/linux64.zip") "128.0.1"
              [Member "chromedriver-linux64/" "" true;
               Member "chromedriver-linux64/LICENSE.chromedriver" "license" true]
              (snd (extract_members "/opt/tool/chromedriver_128.0.1"
                      [Member "chromedriver-linux64/" "" true;
                       Member "chromedriver-linux64/LICENSE.chromedriver" "license" true]
                      (archive_written "128.0.1" licence_archive
                         (add_out (FoundUrl (JStr "https://cft.test/128.0.1/linux64.zip"))
                            (add_out (PlatformName "linux64") licence_world))))))
    as [Hrun Hzip].
  - vm_compute. reflexivity.
  - reflexivity.
  - eexists _, _. repeat split.
  - vm_compute. reflexivity.
  - vm_compute. reflexivity.
  - reflexivity.
  - reflexivity.
  - split; [now rewrite Hrun | exact Hzip].
Defined.

(** C4 as stated fails when the extraction directory is not empty before the
    run: on a disk where an earlier run left the driver of 128.0.1, the
    archive with the licence only extracts without error and holds no file
    named with the driver prefix, yet the driver update returns the driver
    the earlier run left and removes the archive. *)
Lemma stale_driver_is_returned :
  forallb member_clean
    [Member "chromedriver-linux64/" "" true;
     Member "chromedriver-linux64/LICENSE.chromedriver" "license" true] = true /\
  fst (extractall "/opt/tool/chromedriver_128.0.1.zip" "/opt/tool/chromedriver_128.0.1"
         (archive_written "128.0.1" licence_archive
            (add_out (FoundUrl (JStr "https://cft.test/128.0.1/linux64.zip"))
               (add_out (PlatformName "linux64") stale_world)))) = Ok tt /\
  fst (download_and_update_chromedriver "128" stale_world) =
    Ok "/opt/tool/chromedriver_128.0.1/chromedriver-linux64/chromedriver" /\
  fs (snd (download_and_update_chromedriver "128" stale_world))
    !! "/opt/tool/chromedriver_128.0.1.zip" = None.
Proof. repeat split. Qed.

(** C10.  Once the archive is written, no error branch removes it: when the
    extraction raises (the bytes are not a zip archive, a member is corrupt,
    a file is in the way) the driver update returns the empty string and the
    archive is still on disk with the bytes that were downloaded; the same
    holds whenever the driver update returns the empty string. *)
Theorem archive_kept_on_error prefix w w1 u v c :
  fetch_closest_chromedriver_url prefix w = (Ok (u, Some v), w1) ->
  truthy u = true ->
  archive_served w u c ->
  open_error w (zip_path_of (script_dir w) v) = None ->
  (forall e w3,
     extractall (zip_path_of (script_dir w) v) (extract_dir_of (script_dir w) v)
       (archive_written v c w1) = (Raise e, w3) ->
     fst (download_and_update_chromedriver prefix w) = Ok "" /\
     fs (snd (download_and_update_chromedriver prefix w)) !! zip_path_of (script_dir w) v
       = Some (File c)) /\
  ((forall members, c <> ZipArchive members) ->
     download_and_update_chromedriver prefix w =
       (Ok "", add_out BadZipReport (archive_written v c w1))) /\
  (fst (download_and_update_chromedriver prefix w) = Ok "" ->
     fs (snd (download_and_update_chromedriver prefix w)) !! zip_path_of (script_dir w) v
       = Some (File c)).
Proof.
  intros Hres Hu Hserved Hdir. split; [|split].
  - intros e w3 E.
    destruct (download_extract_error prefix w w1 u v c Hres Hu Hserved Hdir e w3 E)
      as (r & -> & Hzip).
    split; [reflexivity | exact Hzip].
  - intros Hbad.
    pose proof (extractall_written prefix w w1 u v c Hres Hserved) as Hall.
    assert (E : extractall (zip_path_of (script_dir w) v) (extract_dir_of (script_dir w) v)
                  (archive_written v c w1) = (Raise BadZipFile, archive_written v c w1)).
    { rewrite Hall. destruct c as [bytes|value|members]; try reflexivity.
      now destruct (Hbad members). }
    rewrite (download_written prefix w w1 u v c Hres Hu Hserved Hdir).
    unfold try_except, bind at 1. now rewrite E.
  - destruct (provision_outcome prefix w w1 u v c Hres Hu Hserved Hdir)
      as (w' & [[-> Hzip] | (driver_file & tree & -> & Hne & _)]).
    + intros _. exact Hzip.
    + cbn [fst]. intros [= ->]. now destruct Hne.
Qed.

Lemma archive_kept_on_error_witness :
  download_and_update_chromedriver "128" corrupt_world =
    (Ok "",
     add_out BadZipReport
       (archive_written "128.0.1" (Raw "<html>moved</html>")
          (add_out (FoundUrl (JStr "https://cft.test/128.0.1/linux64.zip"))
             (add_out (PlatformName "linux64") corrupt_world)))) /\
  fs (snd (download_and_update_chromedriver "128" corrupt_world))
    !! "/opt/tool/chromedriver_128.0.1.zip" = Some (File (Raw "<html>moved</html>")).
Proof.
  destruct (archive_kept_on_error "128" corrupt_world
              (add_out (FoundUrl (JStr "https://cft.test/128.0.1/linux64.zip"))
                 (add_out (PlatformName "linux64") corrupt_world))
              (JStr "https://cft.test/128.0.1/linux64.zip") "128.0.1"
              (Raw "<html>moved</html>"))
    as (_ & Hbad & Hkept).
  - vm_compute. reflexivity.
  - reflexivity.
  - eexists _, _. repeat split.
  - reflexivity.
  - split.
    + apply Hbad. intros members. discriminate.
    + apply Hkept. rewrite Hbad; [reflexivity | intros members; discriminate].
Defined.

(* ===================================================================== *)
(** ** The scan on any manifest *)
(* ===================================================================== *)

Section Scan.

Variables (prefix tag : string).

Lemma scan_versions_pass j rest w :
  passed_over prefix tag j ->
  scan_versions prefix tag (j :: rest) w = scan_versions prefix tag rest w.
Proof.
  intros [(items & v & -> & Hv & Hp) | (e & Hshape & Hnone)].
  - cbn [scan_versions]. unfold bind at 1 2, lift, subscript.
    rewrite Hv. cbn [as_str]. now rewrite Hp.
  - destruct Hshape as (items & downloads & drivers & -> & Hv & Hd & Hc & Hds).
    cbn [scan_versions]. unfold bind at 1 2, lift, subscript.
    rewrite Hv. cbn [as_str].
    destruct (startswith (version e) prefix); [|reflexivity].
    unfold bind at 1 2 3 4. rewrite Hd, Hc. cbn [py_iter].
    rewrite (scan_downloads_shape tag _ _ _ Hds), (existsb_false_find _ _ Hnone).
    reflexivity.
Qed.

Lemma scan_versions_skip skipped rest w :
  Forall (passed_over prefix tag) skipped ->
  scan_versions prefix tag (skipped ++ rest)%list w = scan_versions prefix tag rest w.
Proof.
  induction 1 as [|j skipped Hj _ IH]; [reflexivity|].
  cbn [app]. now rewrite (scan_versions_pass _ _ _ Hj).
Qed.

Lemma scan_downloads_pass v j rest w :
  download_passed tag j ->
  scan_downloads tag v (j :: rest) w = scan_downloads tag v rest w.
Proof.
  intros (items & p & -> & Hp & Hin). cbn [scan_downloads].
  unfold bind at 1 2, lift, subscript. now rewrite Hp, Hin.
Qed.

Lemma scan_downloads_skip v passed rest w :
  Forall (download_passed tag) passed ->
  scan_downloads tag v (passed ++ rest)%list w = scan_downloads tag v rest w.
Proof.
  induction 1 as [|j passed Hj _ IH]; [reflexivity|].
  cbn [app]. now rewrite (scan_downloads_pass _ _ _ _ Hj).
Qed.

Lemma scan_downloads_raises v j e rest w :
  download_raises tag j e ->
  scan_downloads tag v (j :: rest) w = (Raise e, w).
Proof.
  intros H. cbn [scan_downloads]. unfold bind at 1, lift at 1.
  destruct H as [j Hj | items Hp | items p Hp Hin | items p Hp Hin Hu].
  - destruct j; try reflexivity. now destruct (Hj items).
  - unfold subscript. now rewrite Hp.
  - unfold subscript. rewrite Hp. unfold bind at 1, lift at 1. now rewrite Hin.
  - unfold subscript at 1. rewrite Hp. unfold bind at 1, lift at 1. rewrite Hin.
    unfold bind at 1, lift at 1, subscript. now rewrite Hu.
Qed.

Lemma scan_versions_raises j e rest w :
  entry_raises prefix tag j e ->
  scan_versions prefix tag (j :: rest) w = (Raise e, w).
Proof.
  intros H. cbn [scan_versions]. unfold bind at 1, lift at 1.
  destruct H as [j Hj | items Hv | items value Hv Hs | items v Hv Hp Hd
                | items v value Hv Hp Hd Hn | items v downloads Hv Hp Hd Hc
                | items v downloads value Hv Hp Hd Hc Hi
                | items v downloads value passed bad others e Hv Hp Hd Hc Hi Hpassed Hbad].
  - destruct j; try reflexivity. now destruct (Hj items).
  - unfold subscript. now rewrite Hv.
  - unfold subscript. rewrite Hv. unfold bind at 1, lift at 1.
    destruct value; try reflexivity. now destruct (Hs s).
  - unfold subscript at 1. rewrite Hv. unfold bind at 1, lift at 1. cbn [as_str].
    rewrite Hp. unfold bind at 1, lift at 1, subscript at 1. now rewrite Hd.
  - unfold subscript at 1. rewrite Hv. unfold bind at 1, lift at 1. cbn [as_str].
    rewrite Hp. unfold bind at 1, lift at 1, subscript at 1. rewrite Hd.
    unfold bind at 1, lift at 1. destruct value; try reflexivity. now destruct (Hn items0).
  - unfold subscript at 1. rewrite Hv. unfold bind at 1, lift at 1. cbn [as_str].
    rewrite Hp. unfold bind at 1, lift at 1, subscript at 1. rewrite Hd.
    unfold bind at 1, lift at 1, subscript. now rewrite Hc.
  - unfold subscript at 1. rewrite Hv. unfold bind at 1, lift at 1. cbn [as_str].
    rewrite Hp. unfold bind at 1, lift at 1, subscript at 1. rewrite Hd.
    unfold bind at 1, lift at 1, subscript. rewrite Hc.
    unfold bind at 1, lift at 1. now rewrite Hi.
  - unfold subscript at 1. rewrite Hv. unfold bind at 1, lift at 1. cbn [as_str].
    rewrite Hp. unfold bind at 1, lift at 1, subscript at 1. rewrite Hd.
    unfold bind at 1, lift at 1, subscript. rewrite Hc.
    unfold bind at 1, lift at 1. rewrite Hi. unfold bind at 1.
    now rewrite (scan_downloads_skip _ _ _ _ Hpassed), (scan_downloads_raises _ _ _ _ _ Hbad).
Qed.

(** The lookup on a served manifest whose versions are a list. *)
Lemma lookup_versions w items versions :
  manifest_served w (JDict items) ->
  get_platform_name (system w) = Ok tag ->
  assoc "versions" items = Some (JList versions) ->
  fetch_closest_chromedriver_url prefix w =
    match scan_versions prefix tag versions (add_out (PlatformName tag) w) with
    | (Ok (Some (u, v)), w') => (Ok (u, Some v), w')
    | (Ok None, w') => (Ok (JNull, None), add_out NotFound w')
    | (Raise e, w') => (Ok (JNull, None), snd (lookup_handler e w'))
    end.
Proof.
  intros Hserved Htag Hvs.
  unfold fetch_closest_chromedriver_url, bind at 1, try_except.
  rewrite (lookup_body_fetched _ _ _ Hserved), Htag.
  unfold bind at 1, print at 1. unfold bind at 1, lift at 1, subscript. rewrite Hvs.
  unfold bind at 1, lift at 1. cbn [py_iter]. unfold bind at 1.
  destruct (scan_versions prefix tag versions _) as [[[[u v]|]|e] w'];
    try reflexivity.
  destruct e; reflexivity.
Qed.

End Scan.

(** X1.  The scan stops at the first entry it cannot read.  After entries it
    passes over, an entry at which the scan raises makes the lookup report
    the error and return (None, None), whatever entries follow.  The scan
    raises at an entry that is not an object, has no version or a version
    that is not a string, or whose version starts with the prefix while its
    chromedriver downloads cannot be reached, cannot be iterated, or hold,
    before any download for the platform, one that cannot be read (not an
    object, without platform, with a platform the tag cannot be searched
    in) or the first download for the platform has no url. *)
Theorem malformed_entry_ends_scan w prefix tag items skipped bad rest e :
  manifest_served w (JDict items) ->
  get_platform_name (system w) = Ok tag ->
  assoc "versions" items = Some (JList (skipped ++ bad :: rest)%list) ->
  Forall (passed_over prefix tag) skipped ->
  entry_raises prefix tag bad e ->
  fetch_closest_chromedriver_url prefix w =
    (Ok (JNull, None), add_out (ErrorReport e) (add_out (PlatformName tag) w)).
Proof.
  intros Hserved Htag Hvs Hskip Hbad.
  rewrite (lookup_versions prefix tag w items _ Hserved Htag Hvs).
  rewrite (scan_versions_skip _ _ _ _ _ Hskip), (scan_versions_raises _ _ _ _ _ _ Hbad).
  destruct Hbad as [| | | | | | | ? ? ? ? ? ? ? ? ? ? ? ? ? ? Hdownload];
    try reflexivity.
  destruct Hdownload; reflexivity.
Qed.

Lemma malformed_entry_ends_scan_witness :
  fetch_closest_chromedriver_url "128" browser_only_world =
    (Ok (JNull, None),
     add_out (ErrorReport (KeyError "chromedriver"))
       (add_out (PlatformName "linux64") browser_only_world)) /\
  fetch_closest_chromedriver_url "128" broken_download_world =
    (Ok (JNull, None),
     add_out (ErrorReport TypeError)
       (add_out (PlatformName "linux64") broken_download_world)).
Proof.
  split.
  - apply (malformed_entry_ends_scan browser_only_world "128" "linux64"
             [("timestamp", JStr "2024-09-01T00:00:00.000Z");
              ("versions",
               JList [JDict [("version", JStr "128.0.0");
                             ("revision", JStr "1");
                             ("downloads",
                              JDict [("chrome",
                                      JList [download_json
                                               {| platform := "linux64";
                                                  url := "https://cft.test/128.0.0/chrome.zip" |}])])];
                      entry_json (linux_driver "128.0.1")])]
             []
             (JDict [("version", JStr "128.0.0");
                     ("revision", JStr "1");
                     ("downloads",
                      JDict [("chrome",
                              JList [download_json
                                       {| platform := "linux64";
                                          url := "https://cft.test/128.0.0/chrome.zip" |}])])])
             [entry_json (linux_driver "128.0.1")]).
    + eexists. repeat split.
    + reflexivity.
    + reflexivity.
    + constructor.
    + apply (entry_without_driver "128" "linux64" _ "128.0.0"
               [("chrome",
                 JList [download_json
                          {| platform := "linux64";
                             url := "https://cft.test/128.0.0/chrome.zip" |}])]);
        reflexivity.
  - apply (malformed_entry_ends_scan broken_download_world "128" "linux64"
             [("versions",
               JList [JDict [("version", JStr "128.0.0");
                             ("downloads",
                              JDict [("chromedriver",
                                      JList [download_json
                                               {| platform := "mac-arm64";
                                                  url := "https://cft.test/128.0.0/mac-arm64.zip" |};
                                             JNull;
                                             download_json
                                               {| platform := "linux64";
                                                  url := "https://cft.test/128.0.0/linux64.zip" |}])])];
                      entry_json (linux_driver "128.0.1")])]
             []
             (JDict [("version", JStr "128.0.0");
                     ("downloads",
                      JDict [("chromedriver",
                              JList [download_json
                                       {| platform := "mac-arm64";
                                          url := "https://cft.test/128.0.0/mac-arm64.zip" |};
                                     JNull;
                                     download_json
                                       {| platform := "linux64";
                                          url := "https://cft.test/128.0.0/linux64.zip" |}])])])
             [entry_json (linux_driver "128.0.1")]).
    + eexists. repeat split.
    + reflexivity.
    + reflexivity.
    + constructor.
    + apply (entry_download_raises "128" "linux64" _ "128.0.0"
               [("chromedriver",
                 JList [download_json
                          {| platform := "mac-arm64";
                             url := "https://cft.test/128.0.0/mac-arm64.zip" |};
                        JNull;
                        download_json
                          {| platform := "linux64";
                             url := "https://cft.test/128.0.0/linux64.zip" |}])]
               (JList [download_json
                         {| platform := "mac-arm64";
                            url := "https://cft.test/128.0.0/mac-arm64.zip" |};
                       JNull;
                       download_json
                         {| platform := "linux64";
                            url := "https://cft.test/128.0.0/linux64.zip" |}])
               [download_json
                  {| platform := "mac-arm64";
                     url := "https://cft.test/128.0.0/mac-arm64.zip" |}]
               JNull
               [download_json
                  {| platform := "linux64";
                     url := "https://cft.test/128.0.0/linux64.zip" |}]
               TypeError); try reflexivity.
      * constructor; [|constructor]. eexists _, _. repeat split.
      * apply download_not_object. intros items. discriminate.
Defined.

(** X3.  The scan reads no further than it needs.  Entries whose version
    does not start with the prefix need a string version and nothing else;
    the entry that matches needs well-formed downloads up to the first one
    for the platform; what follows in that entry and in the manifest is not
    read.  The lookup returns the value of that download's url, whatever it
    is, with the entry's version. *)
Theorem scan_reads_up_to_first_match
    w prefix tag items skipped rest hit v downloads dbefore ds ditems dafter p u :
  manifest_served w (JDict items) ->
  get_platform_name (system w) = Ok tag ->
  assoc "versions" items = Some (JList (skipped ++ JDict hit :: rest)%list) ->
  Forall (passed_over prefix tag) skipped ->
  assoc "version" hit = Some (JStr v) ->
  startswith v prefix = true ->
  assoc "downloads" hit = Some (JDict downloads) ->
  assoc "chromedriver" downloads = Some (JList (dbefore ++ JDict ditems :: dafter)%list) ->
  Forall2 download_shape dbefore ds ->
  existsb (for_platform tag) ds = false ->
  assoc "platform" ditems = Some (JStr p) ->
  str_contains p tag = true ->
  assoc "url" ditems = Some u ->
  fetch_closest_chromedriver_url prefix w =
    (Ok (u, Some v), add_out (FoundUrl u) (add_out (PlatformName tag) w)).
Proof.
  intros Hserved Htag Hvs Hskip Hv Hp Hd Hc Hshape Hnone Hplat Hin Hu.
  rewrite (lookup_versions prefix tag w items _ Hserved Htag Hvs).
  rewrite (scan_versions_skip _ _ _ _ _ Hskip).
  cbn [scan_versions]. unfold bind at 1 2, lift, subscript.
  rewrite Hv. cbn [as_str]. rewrite Hp.
  unfold bind at 1 2 3 4. rewrite Hd, Hc. cbn [py_iter].
  assert (Hscan : forall w0,
            scan_downloads tag v (dbefore ++ JDict ditems :: dafter)%list w0 =
            (Ok (Some (u, v)), add_out (FoundUrl u) w0)).
  { clear - Hshape Hnone Hplat Hin Hu. intros w0.
    induction Hshape as [|j d dbefore ds (it & -> & Hjp & Hju) _ IH].
    - cbn [app scan_downloads]. unfold bind, lift, subscript.
      rewrite Hplat. cbn [py_in]. rewrite Hin, Hu. reflexivity.
    - cbn [existsb] in Hnone. apply orb_false_elim in Hnone as [Hd Hrest].
      cbn [app scan_downloads]. unfold bind at 1 2, lift, subscript.
      rewrite Hjp. cbn [py_in]. unfold for_platform in Hd. rewrite Hd.
      apply IH, Hrest. }
  now rewrite Hscan.
Qed.

Lemma scan_reads_up_to_first_match_witness :
  fetch_closest_chromedriver_url "128" early_entries_world =
    (Ok (JStr "https://cft.test/128.0.1/linux64.zip", Some "128.0.1"),
     add_out (FoundUrl (JStr "https://cft.test/128.0.1/linux64.zip"))
       (add_out (PlatformName "linux64") early_entries_world)).
Proof.
  apply (scan_reads_up_to_first_match early_entries_world "128" "linux64"
           [("timestamp", JStr "2024-09-01T00:00:00.000Z");
            ("versions",
             JList [JDict [("version", JStr "113.0.5672.0");
                           ("revision", JStr "1121455");
                           ("downloads",
                            JDict [("chrome",
                                    JList [download_json
                                             {| platform := "linux64";
                                                url := "https://cft.test/113/chrome.zip" |}])])];
                    entry_json (linux_driver "128.0.1");
                    JNull])]
           [JDict [("version", JStr "113.0.5672.0");
                   ("revision", JStr "1121455");
                   ("downloads",
                    JDict [("chrome",
                            JList [download_json
                                     {| platform := "linux64";
                                        url := "https://cft.test/113/chrome.zip" |}])])]]
           [JNull]
           [("version", JStr "128.0.1");
            ("downloads",
             JDict [("chromedriver",
                     JList (map download_json (chromedriver (linux_driver "128.0.1"))))])]
           "128.0.1"
           [("chromedriver", JList (map download_json (chromedriver (linux_driver "128.0.1"))))]
           [download_json {| platform := "mac-arm64";
                             url := "https://cft.test/128.0.1/mac-arm64.zip" |}]
           [ {| platform := "mac-arm64"; url := "https://cft.test/128.0.1/mac-arm64.zip" |} ]
           [("platform", JStr "linux64");
            ("url", JStr "https://cft.test/128.0.1/linux64.zip")]
           []
           "linux64" (JStr "https://cft.test/128.0.1/linux64.zip")).
  - eexists. repeat split.
  - reflexivity.
  - reflexivity.
  - constructor; [|constructor]. left.
    exists [("version", JStr "113.0.5672.0");
            ("revision", JStr "1121455");
            ("downloads",
             JDict [("chrome",
                     JList [download_json
                              {| platform := "linux64";
                                 url := "https://cft.test/113/chrome.zip" |}])])],
           "113.0.5672.0".
    repeat split.
  - reflexivity.
  - reflexivity.
  - reflexivity.
  - reflexivity.
  - constructor; [|constructor]. eexists. repeat split.
  - reflexivity.
  - reflexivity.
  - reflexivity.
  - reflexivity.
Defined.

(* ===================================================================== *)
(** ** What the lookup returns, on any manifest *)
(* ===================================================================== *)

Lemma scan_downloads_result tag v downloads :
  forall w r w',
    scan_downloads tag v downloads w = (r, w') ->
    match r with
    | Ok (Some (u, v')) => v' = v /\ w' = add_out (FoundUrl u) w
    | _ => w' = w
    end.
Proof.
  induction downloads as [|d downloads IH]; intros w r w' H.
  - injection H as <- <-. reflexivity.
  - cbn [scan_downloads] in H. unfold bind at 1, lift at 1 in H.
    destruct (subscript d "platform") as [platform|e]; [|injection H as <- <-; reflexivity].
    unfold bind at 1, lift at 1 in H.
    destruct (py_in tag platform) as [[|]|e]; [| |injection H as <- <-; reflexivity].
    + unfold bind at 1, lift at 1 in H.
      destruct (subscript d "url") as [u|e]; [|injection H as <- <-; reflexivity].
      injection H as <- <-. split; reflexivity.
    + exact (IH _ _ _ H).
Qed.

Lemma scan_versions_result prefix tag versions :
  forall w r w',
    scan_versions prefix tag versions w = (r, w') ->
    match r with
    | Ok (Some (u, v)) => startswith v prefix = true /\ w' = add_out (FoundUrl u) w
    | _ => w' = w
    end.
Proof.
  induction versions as [|j versions IH]; intros w r w' H.
  - injection H as <- <-. reflexivity.
  - cbn [scan_versions] in H. unfold bind at 1, lift at 1 in H.
    destruct (subscript j "version") as [value|e]; [|injection H as <- <-; reflexivity].
    unfold bind at 1, lift at 1 in H.
    destruct (as_str value) as [v|e]; [|injection H as <- <-; reflexivity].
    destruct (startswith v prefix) eqn:Hp; [|exact (IH _ _ _ H)].
    unfold bind at 1, lift at 1 in H.
    destruct (subscript j "downloads") as [downloads|e]; [|injection H as <- <-; reflexivity].
    unfold bind at 1, lift at 1 in H.
    destruct (subscript downloads "chromedriver") as [drivers|e];
      [|injection H as <- <-; reflexivity].
    unfold bind at 1, lift at 1 in H.
    destruct (py_iter drivers) as [items|e]; [|injection H as <- <-; reflexivity].
    unfold bind at 1 in H.
    destruct (scan_downloads tag v items w) as [[[[u v']|]|e] w1] eqn:E;
      pose proof (scan_downloads_result _ _ _ _ _ _ E) as Hr; cbn in Hr.
    + injection H as <- <-. destruct Hr as [-> ->]. split; [exact Hp | reflexivity].
    + subst w1. exact (IH _ _ _ H).
    + injection H as <- <-. exact Hr.
Qed.

Lemma fetch_result_form prefix w u actual_version w' :
  fetch_closest_chromedriver_url prefix w = (Ok (u, actual_version), w') ->
  (u = JNull /\ actual_version = None) \/
  (exists v tag,
     actual_version = Some v /\
     startswith v prefix = true /\
     get_platform_name (system w) = Ok tag /\
     w' = add_out (FoundUrl u) (add_out (PlatformName tag) w)).
Proof.
  unfold fetch_closest_chromedriver_url, bind at 1, try_except.
  destruct (lookup_body prefix w) as [[[[u0 v0]|]|e] w1] eqn:E.
  - intros [= <- <- <-]. right.
    unfold lookup_body in E. unfold bind at 1 in E.
    destruct (requests_get (JStr json_url) w) as [[response|e] wa] eqn:Eg; [|discriminate].
    assert (wa = w) as ->.
    { unfold requests_get in Eg. destruct (http w json_url); now injection Eg. }
    unfold bind at 1, raise_for_status in E.
    destruct ((400 <=? status_code response) && (status_code response <? 600));
      [discriminate|].
    unfold ret at 1, bind at 1, response_json in E.
    destruct (content response); try discriminate.
    unfold ret at 1, bind at 1, ask, bind at 1, lift at 1 in E.
    destruct (get_platform_name (system w)) as [tag|e]; [|discriminate].
    unfold bind at 1, print at 1, bind at 1, lift at 1 in E.
    destruct (subscript value "versions") as [versions|e]; [|discriminate].
    unfold bind at 1, lift at 1 in E.
    destruct (py_iter versions) as [items|e]; [|discriminate].
    unfold bind at 1 in E.
    destruct (scan_versions prefix tag items _) as [[[[u1 v1]|]|e] w2] eqn:Es;
      try discriminate.
    pose proof (scan_versions_result _ _ _ _ _ _ Es) as [Hp ->].
    injection E as <- <- <-. exists v1, tag. repeat split. exact Hp.
  - intros [= <- <- <-]. left. split; reflexivity.
  - destruct (lookup_handler_returns e w1) as [-> | ->];
      intros [= <- <- <-]; left; split; reflexivity.
Qed.

(** X4.  Whatever the server sends, the lookup returns either (None, None)
    or a version that starts with the prefix, on a supported platform, with
    the platform line and the found line as the two lines it printed. *)
Theorem lookup_result_invariant prefix w u actual_version w' :
  fetch_closest_chromedriver_url prefix w = (Ok (u, actual_version), w') ->
  (u = JNull /\ actual_version = None) \/
  (exists v tag,
     actual_version = Some v /\
     startswith v prefix = true /\
     get_platform_name (system w) = Ok tag /\
     w' = add_out (FoundUrl u) (add_out (PlatformName tag) w)).
Proof. exact (fetch_result_form prefix w u actual_version w'). Qed.

Lemma lookup_result_invariant_witness :
  (JStr "https://cft.test/128.0.1/linux64.zip" = JNull /\ Some "128.0.1" = None) \/
  (exists v tag,
     Some "128.0.1" = Some v /\
     startswith v "128" = true /\
     get_platform_name (system example_world) = Ok tag /\
     add_out (FoundUrl (JStr "https://cft.test/128.0.1/linux64.zip"))
       (add_out (PlatformName "linux64") example_world) =
     add_out (FoundUrl (JStr "https://cft.test/128.0.1/linux64.zip"))
       (add_out (PlatformName tag) example_world)).
Proof.
  apply (lookup_result_invariant "128" example_world).
  vm_compute. reflexivity.
Defined.

Lemma bind_print {B} r (k : unit -> M B) w :
  bind (print r) k w = k tt (add_out r w).
Proof. reflexivity. Qed.

Lemma bind_lift {A B} (x : result A) (k : A -> M B) w :
  bind (lift x) k w = match x with Ok a => k a w | Raise e => (Raise e, w) end.
Proof. destruct x; reflexivity. Qed.

(** X5.  A manifest without entries to scan.  A body that is no object, an
    object without the versions key, or versions that cannot be iterated
    make the lookup report the error; versions that are empty make it report
    that nothing was found.  The lookup returns (None, None) each time. *)
Theorem manifest_without_entries w prefix data tag :
  manifest_served w data ->
  get_platform_name (system w) = Ok tag ->
  ((forall items, data <> JDict items) ->
   fetch_closest_chromedriver_url prefix w =
     (Ok (JNull, None), add_out (ErrorReport TypeError) (add_out (PlatformName tag) w))) /\
  (forall items,
     data = JDict items -> assoc "versions" items = None ->
     fetch_closest_chromedriver_url prefix w =
       (Ok (JNull, None),
        add_out (ErrorReport (KeyError "versions")) (add_out (PlatformName tag) w))) /\
  (forall items versions,
     data = JDict items -> assoc "versions" items = Some versions ->
     py_iter versions = Raise TypeError ->
     fetch_closest_chromedriver_url prefix w =
       (Ok (JNull, None), add_out (ErrorReport TypeError) (add_out (PlatformName tag) w))) /\
  (forall items versions,
     data = JDict items -> assoc "versions" items = Some versions ->
     py_iter versions = Ok [] ->
     fetch_closest_chromedriver_url prefix w =
       (Ok (JNull, None), add_out NotFound (add_out (PlatformName tag) w))).
Proof.
  intros Hserved Htag.
  assert (Hrun : fetch_closest_chromedriver_url prefix w =
            let (r, w') :=
              match subscript data "versions" with
              | Ok versions =>
                  (items <~ lift (py_iter versions) ;;
                   found <~ scan_versions prefix tag items ;;
                   match found with
                   | Some hit => ret (Some hit)
                   | None => print NotFound ;;; ret None
                   end) (add_out (PlatformName tag) w)
              | Raise e => (Raise e, add_out (PlatformName tag) w)
              end in
            match r with
            | Ok (Some (u, v)) => (Ok (u, Some v), w')
            | Ok None => (Ok (JNull, None), w')
            | Raise e =>
                (Ok (JNull, None), add_out (match e with
                                            | RequestException _ => RequestErrorReport e
                                            | _ => ErrorReport e
                                            end) w')
            end).
  { unfold fetch_closest_chromedriver_url, bind at 1, try_except.
    rewrite (lookup_body_fetched _ _ _ Hserved), Htag.
    rewrite bind_print, bind_lift.
    destruct (subscript data "versions") as [versions|e].
    - match goal with
      | |- context [bind (lift (py_iter versions)) ?k ?x] =>
          destruct (bind (lift (py_iter versions)) k x) as [[[[u v]|]|e] w']
      end; try reflexivity.
      destruct e; reflexivity.
    - destruct e; reflexivity. }
  rewrite Hrun. clear Hrun. repeat split.
  - intros Hno. destruct data; try reflexivity. now destruct (Hno items).
  - intros items -> Hv. unfold subscript. now rewrite Hv.
  - intros items versions -> Hv Hi. unfold subscript. rewrite Hv.
    now rewrite bind_lift, Hi.
  - intros items versions -> Hv Hi. unfold subscript. rewrite Hv.
    now rewrite bind_lift, Hi.
Qed.

Lemma manifest_without_entries_witness :
  fetch_closest_chromedriver_url "128" no_versions_world =
    (Ok (JNull, None), add_out NotFound (add_out (PlatformName "linux64") no_versions_world)).
Proof.
  refine (proj2 (proj2 (proj2
            (manifest_without_entries no_versions_world "128"
               (JDict [("versions", JList [])]) "linux64" _ _)))
            [("versions", JList [])] (JList []) _ _ _).
  - eexists. repeat split.
  - reflexivity.
  - reflexivity.
  - reflexivity.
  - reflexivity.
Defined.

Lemma str_contains_run s p :
  str_contains s p = true <-> exists a b, s = a +:+ p +:+ b.
Proof.
  split.
  - induction s as [|c s IH]; cbn [str_contains]; intros H.
    + rewrite orb_false_r in H. apply startswith_prefix in H as [rest ->]. now exists "", rest.
    + apply orb_prop in H as [H | H].
      * apply startswith_prefix in H as [rest ->]. now exists "", rest.
      * destruct (IH H) as (a & b & ->). now exists (String c a), b.
  - intros (a & b & ->). induction a as [|c a IH].
    + change ("" +:+ p +:+ b) with (p +:+ b).
      destruct (p +:+ b) eqn:E; cbn [str_contains]; rewrite <- E, startswith_app; reflexivity.
    + rewrite app_cons. cbn [str_contains]. rewrite IH. apply orb_true_r.
Qed.

(** X6.  A download is for the platform when its platform field contains
    the tag anywhere, not when it equals the tag: an entry whose version
    starts with the prefix is selected exactly when the platform of its
    download is some text, the tag, some text. *)
Theorem platform_match_is_containment w data prefix tag v p u :
  manifest_served w data ->
  manifest_shape data
    [ {| version := v; chromedriver := [ {| platform := p; url := u |} ] |} ] ->
  get_platform_name (system w) = Ok tag ->
  startswith v prefix = true ->
  (fst (fetch_closest_chromedriver_url prefix w) = Ok (JStr u, Some v)
   <-> exists a b, p = a +:+ tag +:+ b).
Proof.
  intros Hs Hm Ht Hp.
  rewrite (lookup_served prefix tag w data _ Hs Hm Ht).
  rewrite <- str_contains_run. cbn [first_match version chromedriver List.find].
  rewrite Hp. unfold for_platform. cbn [platform url].
  destruct (str_contains p tag); cbn [fst]; split; intros H; try reflexivity; discriminate.
Qed.

Lemma platform_match_is_containment_witness :
  fst (fetch_closest_chromedriver_url "128" short_prefix_world)
    = Ok (JStr "https://cft.test/128.0.1/linux64.zip", Some "128.0.1")
  <-> exists a b, "linux64" = a +:+ "linux64" +:+ b.
Proof.
  apply (platform_match_is_containment short_prefix_world
           (manifest_json [ {| version := "128.0.1";
                               chromedriver :=
                                 [ {| platform := "linux64";
                                      url := "https://cft.test/128.0.1/linux64.zip" |} ] |} ])
           "128" "linux64" "128.0.1" "linux64" "https://cft.test/128.0.1/linux64.zip").
  - eexists. repeat split.
  - apply manifest_json_shape.
  - reflexivity.
  - reflexivity.
Defined.

(* ===================================================================== *)
(** ** What the driver update returns, on any run *)
(* ===================================================================== *)

Lemma find_driver_file triples path :
  find_driver triples = Some path ->
  exists root file, path = path_join root file /\ startswith file "chromedriver" = true.
Proof.
  induction triples as [|[[top dirs] files] triples IH]; cbn [find_driver]; [discriminate|].
  destruct (scan_files top files) as [p|] eqn:E; [|exact IH].
  destruct (String.eqb p ""); [exact IH|].
  intros [= <-]. destruct (scan_files_some _ _ _ E) as (_ & file & _ & _ & _ & Hf & ->).
  now exists top, file.
Qed.

(** The body of the second [try] when it returns. *)
Lemma provision_body_result u v zip_path extract_dir w r w' :
  zip_path <> extract_dir ->
  provision_body u v zip_path extract_dir w = (Ok r, w') ->
  (r = "" /\ exists rest, out w' = DriverFileMissing :: rest) \/
  (r <> "" /\
   fs w' !! zip_path = None /\
   (exists tree,
      fs w' !! extract_dir = Some tree /\
      find_driver (walk_node extract_dir (scanned (scandir w) extract_dir tree))
        = Some r) /\
   exists rest, out w' = DriverPath r :: rest).
Proof.
  intros Hne Hbody.
  assert (Ho : scandir w' = scandir w).
  { now destruct (within_provision_body _ _ _ _ _ _ _ Hbody) as [(_ & _ & _ & Ho) _]. }
  revert Hbody. unfold provision_body. unfold bind at 1.
  destruct (requests_get u w) as [[response|e] wa]; [|discriminate].
  unfold bind at 1.
  destruct (raise_for_status response wa) as [[[]|e] wb]; [|discriminate].
  unfold bind at 1.
  destruct (write_file zip_path (content response) wb) as [[[]|e] wc]; [|discriminate].
  rewrite !bind_print. unfold bind at 1.
  destruct (extractall zip_path extract_dir _) as [[[]|e] wd]; [|discriminate].
  unfold bind at 1, os_walk.
  destruct (fs wd !! extract_dir) as [tree|] eqn:Et.
  - destruct (find_driver _) as [driver_file|] eqn:Ed.
    + unfold bind at 1, os_remove.
      destruct (fs wd !! zip_path) as [[data|entries]|]; try discriminate.
      rewrite bind_print. intros [= <- <-]. cbn [scandir add_out set_fs] in Ho. right.
      split; [exact (find_driver_nonempty _ _ Ed)|]. cbn [fs out add_out set_fs].
      split; [apply lookup_delete_eq|]. split; [|eauto].
      exists tree. split; [|rewrite <- Ho; exact Ed]. now rewrite lookup_delete_ne.
    + rewrite bind_print. intros [= <- <-]. left. split; [reflexivity|]. cbn. eauto.
  - cbn [find_driver]. rewrite bind_print. intros [= <- <-]. left.
    split; [reflexivity|]. cbn. eauto.
Qed.

Lemma provision_handler_line e w :
  exists line,
    provision_handler e w = (Ok "", add_out line w) /\ is_failure_report line = true.
Proof. destruct e; eexists; split; reflexivity. Qed.

(** Every run of the driver update, taken apart: nothing resolved, the second
    [try] caught an exception, or its body returned. *)
Lemma download_cases prefix w r w' :
  download_and_update_chromedriver prefix w = (Ok r, w') ->
  (exists u actual_version w1,
     fetch_closest_chromedriver_url prefix w = (Ok (u, actual_version), w1) /\
     truthy u = false /\ r = "" /\ w' = add_out (NoDriverFor prefix) w1) \/
  (exists u v w1,
     fetch_closest_chromedriver_url prefix w = (Ok (u, Some v), w1) /\
     truthy u = true /\ startswith v prefix = true /\
     ((exists e w2 line,
         provision_body u v (zip_path_of (script_dir w) v) (extract_dir_of (script_dir w) v)
           (add_out (Downloading v) w1) = (Raise e, w2) /\
         r = "" /\ w' = add_out line w2 /\ is_failure_report line = true) \/
      provision_body u v (zip_path_of (script_dir w) v) (extract_dir_of (script_dir w) v)
        (add_out (Downloading v) w1) = (Ok r, w'))).
Proof.
  intros H.
  destruct (fetch_returns prefix w) as ([u actual_version] & w1 & Hf).
  destruct (truthy u) eqn:Hu.
  - right. destruct (fetch_result_form _ _ _ _ _ Hf) as [[-> _] | (v & tag & -> & Hp & _)];
      [discriminate|].
    destruct (fetch_frame _ _ _ _ Hf) as [(_ & _ & Hsd & _) _].
    exists u, v, w1. split; [exact Hf|]. split; [exact Hu|]. split; [exact Hp|].
    rewrite (download_resolved _ _ _ _ _ Hf Hu), Hsd in H. unfold try_except in H.
    destruct (provision_body _ _ _ _ _) as [[a|e] w2] eqn:Eb.
    + right. now injection H as <- <-.
    + left. destruct (provision_handler_line e w2) as (line & Hh & Hline).
      rewrite Hh in H. injection H as <- <-.
      exists e, w2, line. split; [reflexivity|]. split; [reflexivity|].
      split; [reflexivity | exact Hline].
  - left. exists u, actual_version, w1.
    unfold download_and_update_chromedriver, bind at 1 in H. rewrite Hf, Hu in H.
    cbn [negb] in H. rewrite bind_print in H. injection H as <- <-.
    split; [exact Hf|]. split; [exact Hu|]. split; reflexivity.
Qed.

Lemma download_success_form prefix w r w' :
  download_and_update_chromedriver prefix w = (Ok r, w') ->
  r <> "" ->
  exists v tree root file,
    startswith v prefix = true /\
    fs w' !! zip_path_of (script_dir w) v = None /\
    fs w' !! extract_dir_of (script_dir w) v = Some tree /\
    find_driver (walk_node (extract_dir_of (script_dir w) v)
                   (scanned (scandir w) (extract_dir_of (script_dir w) v) tree))
      = Some r /\
    r = path_join root file /\
    startswith file "chromedriver" = true.
Proof.
  intros H Hr.
  destruct (download_cases _ _ _ _ H)
    as [(u & av & w1 & _ & _ & -> & _)
       | (u & v & w1 & Hf & Hu & Hp & [(e & w2 & line & _ & -> & _) | Hbody])];
    try now destruct Hr.
  destruct (provision_body_result _ _ _ _ _ _ _ (zip_path_not_extract_dir _ _) Hbody)
    as [[-> _] | (_ & Hzip & (tree & Htree & Hfound) & _)]; [now destruct Hr|].
  destruct (fetch_frame _ _ _ _ Hf) as [(_ & _ & _ & Ho) _].
  cbn [scandir add_out] in Hfound. rewrite Ho in Hfound.
  destruct (find_driver_file _ _ Hfound) as (root & file & -> & Hfile).
  exists v, tree, root, file. repeat split; assumption.
Qed.



(** X8.  The last line printed tells the outcome: the path of the driver
    when the result is that path, and one of the failure lines when the
    result is the empty string. *)
Theorem last_line_tells_outcome prefix w r w' :
  download_and_update_chromedriver prefix w = (Ok r, w') ->
  exists line rest,
    out w' = line :: rest /\
    if String.eqb r "" then is_failure_report line = true else line = DriverPath r.
Proof.
  intros H.
  destruct (download_cases _ _ _ _ H)
    as [(u & av & w1 & _ & _ & -> & ->)
       | (u & v & w1 & Hf & Hu & Hp & [(e & w2 & line & _ & -> & -> & Hline) | Hbody])].
  - eexists _, _. split; reflexivity.
  - exists line, (out w2). split; [reflexivity | exact Hline].
  - destruct (provision_body_result _ _ _ _ _ _ _ (zip_path_not_extract_dir _ _) Hbody)
      as [[-> (rest & Hout)] | (Hr & _ & _ & (rest & Hout))].
    + exists DriverFileMissing, rest. split; [exact Hout | reflexivity].
    + exists (DriverPath r), rest. split; [exact Hout|].
      apply String.eqb_neq in Hr. now rewrite Hr.
Qed.

Lemma last_line_tells_outcome_witness :
  exists line rest,
    out (snd (download_and_update_chromedriver "128" corrupt_world)) = line :: rest /\
    if String.eqb "" "" then is_failure_report line = true else line = DriverPath "".
Proof.
  apply (last_line_tells_outcome "128" corrupt_world ""
           (snd (download_and_update_chromedriver "128" corrupt_world))).
  vm_compute. reflexivity.
Defined.

(** X9.  The script run as a program never raises, and what it returns, if
    not the empty string, is a driver file of a version that starts with
    128, the default prefix. *)
Theorem program_provisions_128 w :
  exists r w',
    main w = (Ok r, w') /\
    (r = "" \/
     exists v tree,
       startswith v "128" = true /\
       fs w' !! zip_path_of (script_dir w) v = None /\
       fs w' !! extract_dir_of (script_dir w) v = Some tree /\
       find_driver (walk_node (extract_dir_of (script_dir w) v)
                      (scanned (scandir w) (extract_dir_of (script_dir w) v) tree))
         = Some r).
Proof.
  unfold main. rewrite bind_print.
  destruct (download_returns "128" (add_out ScriptStart w)) as (r & w' & H).
  exists r, w'. split; [exact H|].
  destruct (String.eqb r "") eqn:E; [left; now apply String.eqb_eq|].
  right. apply String.eqb_neq in E.
  destruct (download_success_form _ _ _ _ H E)
    as (v & tree & root & file & Hp & Hzip & Htree & Hfound & _).
  exists v, tree. repeat split; assumption.
Qed.

(* ===================================================================== *)
(** ** Runs that write nothing *)
(* ===================================================================== *)

(** X10.  When the archive cannot be fetched (the URL is no string, the GET
    raises, the status is refused) or its file cannot be made (a null
    character in the path, the directory it goes in is missing, a directory
    is at its path), the driver update reports the error, returns the empty
    string and leaves the disk as it was. *)
Theorem failed_fetch_leaves_disk prefix w w1 u v :
  fetch_closest_chromedriver_url prefix w = (Ok (u, Some v), w1) ->
  truthy u = true ->
  (forall e,
     archive_get_fails w u e ->
     download_and_update_chromedriver prefix w =
       (Ok "", add_out (DownloadErrorReport e) (add_out (Downloading v) w1)) /\
     fs (snd (download_and_update_chromedriver prefix w)) = fs w) /\
  (forall c e,
     archive_served w u c ->
     open_error w (zip_path_of (script_dir w) v) = Some e ->
     download_and_update_chromedriver prefix w =
       (Ok "", add_out (ErrorReport e) (add_out (Downloading v) w1)) /\
     fs (snd (download_and_update_chromedriver prefix w)) = fs w).
Proof.
  intros Hf Hu. destruct (fetch_frame _ _ _ _ Hf) as [(_ & Hh & Hsd & _) Hfs].
  split.
  - intros e He.
    assert (Hrun : download_and_update_chromedriver prefix w =
              (Ok "", add_out (DownloadErrorReport e) (add_out (Downloading v) w1))).
    { rewrite (download_resolved _ _ _ _ _ Hf Hu), Hsd.
      unfold try_except, provision_body, bind at 1, requests_get.
      cbn [http add_out]. rewrite Hh.
      destruct He as [u Hno | s err Hget | s r Hget Hstatus].
      - destruct u; try reflexivity. now destruct (Hno s).
      - now rewrite Hget.
      - rewrite Hget. unfold bind at 1, raise_for_status.
        replace ((400 <=? status_code r) && (status_code r <? 600)) with true by lia.
        reflexivity. }
    split; [exact Hrun | now rewrite Hrun].
  - intros c e (s & r & -> & Hget & Hstatus & <-) Hopen.
    assert (Hrun : download_and_update_chromedriver prefix w =
              (Ok "", add_out (ErrorReport e) (add_out (Downloading v) w1))).
    { rewrite (download_resolved _ _ _ _ _ Hf Hu), Hsd.
      unfold try_except, provision_body, bind at 1, requests_get.
      cbn [http add_out]. rewrite Hh, Hget.
      unfold bind at 1, raise_for_status. rewrite Hstatus. unfold ret at 1.
      unfold bind at 1, write_file.
      rewrite (open_error_same w (add_out (Downloading v) w1) _ Hsd Hfs), Hopen.
      destruct (open_error_kind _ _ _ Hopen) as [-> | ->]; reflexivity. }
    split; [exact Hrun | now rewrite Hrun].
Qed.

Lemma failed_fetch_leaves_disk_witness :
  (download_and_update_chromedriver "12" short_prefix_world =
     (Ok "",
      add_out (DownloadErrorReport (RequestException ConnectionError))
        (add_out (Downloading "128.0.1")
           (add_out (FoundUrl (JStr "https://cft.test/128.0.1/linux64.zip"))
              (add_out (PlatformName "linux64") short_prefix_world)))) /\
   fs (snd (download_and_update_chromedriver "12" short_prefix_world))
     = fs short_prefix_world) /\
  (download_and_update_chromedriver "128" separator_world =
     (Ok "",
      add_out (ErrorReport OSError)
        (add_out (Downloading "128/0")
           (add_out (FoundUrl (JStr "https://cft.test/128.0.1/linux64.zip"))
              (add_out (PlatformName "linux64") separator_world)))) /\
   fs (snd (download_and_update_chromedriver "128" separator_world))
     = fs separator_world).
Proof.
  split.
  - apply (proj1 (failed_fetch_leaves_disk "12" short_prefix_world
                    (add_out (FoundUrl (JStr "https://cft.test/128.0.1/linux64.zip"))
                       (add_out (PlatformName "linux64") short_prefix_world))
                    (JStr "https://cft.test/128.0.1/linux64.zip") "128.0.1"
                    ltac:(vm_compute; reflexivity) eq_refl)).
    apply archive_get_raises. reflexivity.
  - apply (proj2 (failed_fetch_leaves_disk "128" separator_world
                    (add_out (FoundUrl (JStr "https://cft.test/128.0.1/linux64.zip"))
                       (add_out (PlatformName "linux64") separator_world))
                    (JStr "https://cft.test/128.0.1/linux64.zip") "128/0"
                    ltac:(vm_compute; reflexivity) eq_refl) example_archive OSError).
    + eexists _, _. repeat split.
    + vm_compute. reflexivity.
Defined.

(** X11.  A download for the platform with an empty url ends the lookup as
    a match: the found line is printed with the empty url, later entries are
    not tried, and the driver update then reports that there is no driver
    and returns the empty string. *)
Theorem empty_url_is_no_driver w data m prefix tag v :
  manifest_served w data ->
  manifest_shape data m ->
  get_platform_name (system w) = Ok tag ->
  first_match prefix tag m = Some ("", v) ->
  download_and_update_chromedriver prefix w =
    (Ok "",
     add_out (NoDriverFor prefix)
       (add_out (FoundUrl (JStr "")) (add_out (PlatformName tag) w))).
Proof.
  intros Hs Hm Ht Hfirst.
  pose proof (lookup_served prefix tag w data m Hs Hm Ht) as Hf. rewrite Hfirst in Hf.
  unfold download_and_update_chromedriver, bind at 1. rewrite Hf. reflexivity.
Qed.

Lemma empty_url_is_no_driver_witness :
  download_and_update_chromedriver "128" empty_url_world =
    (Ok "",
     add_out (NoDriverFor "128")
       (add_out (FoundUrl (JStr "")) (add_out (PlatformName "linux64") empty_url_world))).
Proof.
  apply (empty_url_is_no_driver empty_url_world (manifest_json empty_url_manifest)
           empty_url_manifest "128" "linux64" "128.0.1").
  - eexists. repeat split.
  - apply manifest_json_shape.
  - reflexivity.
  - reflexivity.
Defined.

(* ===================================================================== *)
(** ** A driver file, once on disk, is found *)
(* ===================================================================== *)

Lemma alter_entry_keeps_dirt name f entries entries' :
  alter_entry name f entries = Some entries' ->
  forallb entry_clean entries' = true ->
  (forall target n',
     f target = Some n' ->
     entry_clean (name, n') = true ->
     match target with Some n => entry_clean (name, n) = true | None => True end) ->
  forallb entry_clean entries = true.
Proof.
  intros Ha Hc Hf. revert entries' Ha Hc.
  induction entries as [|[k n] entries IH]; intros entries' Ha Hc; [reflexivity|].
  cbn [alter_entry] in Ha. cbn [forallb].
  destruct (String.eqb k name) eqn:Ek.
  - apply String.eqb_eq in Ek. subst k.
    destruct (f (Some n)) as [n'|] eqn:E; [|discriminate]. injection Ha as <-.
    cbn [forallb] in Hc. apply andb_prop in Hc as [Hk Hrest].
    now rewrite (Hf (Some n) n' E Hk), Hrest.
  - destruct (alter_entry name f entries) as [rest'|] eqn:E; [|discriminate].
    injection Ha as <-. cbn [forallb] in Hc. apply andb_prop in Hc as [Hk Hrest].
    now rewrite Hk, (IH rest' eq_refl Hrest).
Qed.

(** Putting a leaf removes no driver file: a clean result had a clean
    target. *)
Lemma put_keeps_dirt parts l :
  forall name target n',
    put parts l target = Some n' ->
    entry_clean (name, n') = true ->
    match target with Some n => entry_clean (name, n) = true | None => True end.
Proof.
  induction parts as [|part parts IH]; intros name target n' Hput Hc.
  - cbn [put] in Hput. destruct target as [[d|entries]|]; [| |exact I].
    + destruct l; [discriminate|]. injection Hput as <-. exact Hc.
    + destruct l; [|discriminate]. injection Hput as <-. exact Hc.
  - cbn [put] in Hput. destruct target as [[d|entries]|]; [discriminate| |exact I].
    destruct (alter_entry part (put parts l) entries) as [entries'|] eqn:E; [|discriminate].
    injection Hput as <-. unfold entry_clean in Hc |- *. cbn [fst snd] in *.
    rewrite no_driver_dir in Hc |- *.
    apply (alter_entry_keeps_dirt _ _ _ _ E Hc).
    intros target n' Hp Hn. exact (IH part target n' Hp Hn).
Qed.

Lemma alter_entry_sets name f entries entries' :
  alter_entry name f entries = Some entries' ->
  exists target n', f target = Some n' /\ In (name, n') entries'.
Proof.
  revert entries'. induction entries as [|[k n] entries IH]; intros entries' Ha;
    cbn [alter_entry] in Ha.
  - destruct (f None) as [n'|] eqn:E; [|discriminate]. injection Ha as <-.
    exists None, n'. split; [exact E | now left].
  - destruct (String.eqb k name) eqn:Ek.
    + apply String.eqb_eq in Ek. subst k.
      destruct (f (Some n)) as [n'|] eqn:E; [|discriminate]. injection Ha as <-.
      exists (Some n), n'. split; [exact E | now left].
    + destruct (alter_entry name f entries) as [rest'|] eqn:E; [|discriminate].
      injection Ha as <-. destruct (IH rest' eq_refl) as (target & n' & Hf & Hin).
      exists target, n'. split; [exact Hf | now right].
Qed.

(** Putting a file named like the driver makes the tree hold a driver
    file. *)
Lemma put_driver parts data :
  forall name target n',
    put parts (LeafFile data) target = Some n' ->
    startswith (List.last parts name) "chromedriver" = true ->
    entry_clean (name, n') = false.
Proof.
  induction parts as [|part parts IH]; intros name target n' Hput Hl.
  - cbn [put] in Hput.
    assert (n' = File data) as ->.
    { destruct target as [[d|entries]|]; try discriminate; now injection Hput. }
    unfold entry_clean. cbn [fst snd List.last] in *. now rewrite Hl.
  - assert (Hl' : startswith (List.last parts part) "chromedriver" = true).
    { destruct parts as [|q parts]; [exact Hl|].
      rewrite (last_cons_default q parts part name). exact Hl. }
    cbn [put] in Hput. destruct target as [[d|entries]|]; [discriminate|..].
    + destruct (alter_entry part (put parts (LeafFile data)) entries) as [entries'|] eqn:E;
        [|discriminate].
      injection Hput as <-. unfold entry_clean. cbn [fst snd]. rewrite no_driver_dir.
      destruct (alter_entry_sets _ _ _ _ E) as (target & n' & Hp & Hin).
      apply not_true_is_false. intros Hall. rewrite forallb_forall in Hall.
      specialize (Hall _ Hin). rewrite (IH part target n' Hp Hl') in Hall. discriminate.
    + destruct (put parts (LeafFile data) None) as [n|] eqn:E; [|discriminate].
      injection Hput as <-. unfold entry_clean. cbn [fst snd]. rewrite no_driver_dir.
      cbn [forallb]. now rewrite (IH part None n E Hl').
Qed.

Lemma extract_member_keeps_driver path m w r w' :
  extract_member path m w = (r, w') ->
  target_has_driver (fs w !! path) = true ->
  target_has_driver (fs w' !! path) = true.
Proof.
  unfold extract_member. intros H Ht.
  assert (Hput : forall parts l n,
            put parts l (fs w !! path) = Some n -> negb (no_driver n) = true).
  { intros parts l n Hp. destruct (no_driver n) eqn:Hn; [|reflexivity].
    rewrite <- entry_clean_root in Hn.
    pose proof (put_keeps_dirt parts l "" _ _ Hp Hn) as Hc.
    destruct (fs w !! path) as [n0|]; [|discriminate].
    rewrite entry_clean_root in Hc. cbn [target_has_driver] in Ht. now rewrite Hc in Ht. }
  destruct (String.eqb (filename m) ""); [injection H as <- <-; exact Ht|].
  destruct (is_dir m); destruct (put _ _ _) as [n|] eqn:E; injection H as <- <-;
    try exact Ht; cbn [fs set_fs]; rewrite lookup_insert_eq; exact (Hput _ _ _ E).
Qed.

Lemma extract_member_driver path m w w' :
  extract_member path m w = (Ok tt, w') ->
  member_is_driver m = true ->
  target_has_driver (fs w' !! path) = true.
Proof.
  unfold extract_member, member_is_driver, member_file_name. intros H Hm.
  destruct (String.eqb (filename m) ""); [discriminate|].
  destruct (is_dir m); [discriminate|].
  destruct (last (arcname (filename m))) as [name|] eqn:Hlast; [|discriminate].
  destruct (put _ _ _) as [n|] eqn:E; [|discriminate].
  injection H as _ <-. cbn [fs set_fs]. rewrite lookup_insert_eq. cbn [target_has_driver].
  rewrite <- entry_clean_root. apply negb_true_iff.
  apply (put_driver _ _ "" _ _ E). now rewrite (last_default _ _ _ Hlast).
Qed.

Lemma extract_members_driver path members :
  forall w w',
    extract_members path members w = (Ok tt, w') ->
    target_has_driver (fs w !! path) = true \/ existsb member_is_driver members = true ->
    target_has_driver (fs w' !! path) = true.
Proof.
  induction members as [|m members IH]; intros w w' H Hd.
  - injection H as <-. destruct Hd as [Hd | Hd]; [exact Hd | discriminate].
  - cbn [extract_members] in H. unfold bind in H.
    destruct (extract_member path m w) as [[[]|e] w1] eqn:E; [|discriminate].
    apply (IH w1 w' H). cbn [existsb] in Hd.
    destruct Hd as [Hd | Hd].
    + left. exact (extract_member_keeps_driver _ _ _ _ _ E Hd).
    + apply orb_prop in Hd as [Hd | Hd]; [left | right; exact Hd].
      exact (extract_member_driver _ _ _ _ E Hd).
Qed.

(** A tree whose walk lists no driver file holds none. *)
Lemma walk_clean_tree n :
  forall top,
    (forall rf, In rf (walk_files (walk_node top n)) ->
                startswith (snd rf) "chromedriver" = false) ->
    no_driver n = true.
Proof.
  induction n as [data|entries IH] using node_tree_ind; intros top Hw; [reflexivity|].
  rewrite no_driver_dir, forallb_forall. intros [name child] He.
  unfold entry_clean. cbn [fst snd].
  cbn [walk_node walk_files flat_map] in Hw.
  destruct child as [data|sub].
  - apply negb_true_iff. apply (Hw (top, name)).
    apply in_or_app. left. apply in_map. unfold file_names.
    apply in_flat_map. exists (name, File data). split; [exact He | now left].
  - rewrite Forall_forall in IH.
    apply (IH (name, Dir sub) (proj2 (list_elem_of_In _ _) He) (path_join top name)).
    intros rf Hrf. apply Hw. apply in_or_app. right.
    apply in_flat_map in Hrf as (t & Ht & Hrf).
    apply in_flat_map. exists t. split; [|exact Hrf].
    apply in_flat_map. exists (name, Dir sub). split; [exact He | exact Ht].
Qed.

Lemma find_driver_finds triples :
  find_driver triples = None ->
  forall rf, In rf (walk_files triples) -> startswith (snd rf) "chromedriver" = false.
Proof.
  induction triples as [|[[top dirs] files] triples IH]; intros H rf Hin; [destruct Hin|].
  cbn [find_driver] in H. cbn [walk_files flat_map] in Hin.
  destruct (scan_files top files) as [p|] eqn:E.
  - rewrite (scan_files_nonempty _ _ _ E) in H. discriminate.
  - apply in_app_or in Hin as [Hin | Hin]; [|exact (IH H rf Hin)].
    apply in_map_iff in Hin as (f & <- & Hf).
    exact (proj1 (scan_files_none top files) E f Hf).
Qed.

(** X2.  The walk searches what is in the extraction directory after the
    extraction.  Whenever the archive extracts without error and a file
    named with the driver prefix is among its members, or was in the
    extraction directory before, the driver update returns a driver file and
    removes the archive. *)
Theorem driver_on_disk_is_found prefix w w1 u v members w3 :
  fetch_closest_chromedriver_url prefix w = (Ok (u, Some v), w1) ->
  truthy u = true ->
  archive_served w u (ZipArchive members) ->
  open_error w (zip_path_of (script_dir w) v) = None ->
  extract_members (extract_dir_of (script_dir w) v) members
    (archive_written v (ZipArchive members) w1) = (Ok tt, w3) ->
  target_has_driver (fs w !! extract_dir_of (script_dir w) v) = true \/
  existsb member_is_driver members = true ->
  exists root file,
    fst (download_and_update_chromedriver prefix w) = Ok (path_join root file) /\
    startswith file "chromedriver" = true /\
    fs (snd (download_and_update_chromedriver prefix w)) !! zip_path_of (script_dir w) v
      = None.
Proof.
  intros Hres Hu Hserved Hopen Hext Hdriver.
  pose proof (extractall_written prefix w w1 u v (ZipArchive members) Hres Hserved) as Hall.
  cbv iota in Hall. rewrite Hext in Hall.
  destruct (download_extracted prefix w w1 u v _ Hres Hu Hserved Hopen w3 Hall) as [_ ->].
  assert (Hhas : target_has_driver (fs w3 !! extract_dir_of (script_dir w) v) = true).
  { apply (extract_members_driver _ _ _ _ Hext).
    now rewrite (archive_written_extract_dir prefix w w1 u v _ Hres). }
  destruct (fs w3 !! extract_dir_of (script_dir w) v) as [tree|]; [|discriminate].
  cbn [target_has_driver] in Hhas. apply negb_true_iff in Hhas.
  destruct (find_driver _) as [driver_file|] eqn:Ed.
  - destruct (find_driver_file _ _ Ed) as (root & file & -> & Hfile).
    exists root, file. cbn [fst snd fs add_out set_fs].
    repeat split; [exact Hfile | apply lookup_delete_eq].
  - rewrite <- (no_driver_scanned (scandir w) tree (extract_dir_of (script_dir w) v)),
      (walk_clean_tree _ _ (find_driver_finds _ Ed)) in Hhas.
    discriminate.
Qed.

Lemma driver_on_disk_is_found_witness :
  exists root file,
    fst (download_and_update_chromedriver "128" stale_world) = Ok (path_join root file) /\
    startswith file "chromedriver" = true /\
    fs (snd (download_and_update_chromedriver "128" stale_world))
      !! zip_path_of (script_dir stale_world) "128.0.1" = None.
Proof.
  apply (driver_on_disk_is_found "128" stale_world
           (add_out (FoundUrl (JStr "https://cft.test/128.0.1/linux64.zip"))
              (add_out (PlatformName "linux64") stale_world))
           (JStr "https://cft.test/128.0.1/linux64.zip") "128.0.1"
           [Member "chromedriver-linux64/" "" true;
            Member "chromedriver-linux64/LICENSE.chromedriver" "license" true]
           (snd (extract_members "/opt/tool/chromedriver_128.0.1"
                   [Member "chromedriver-linux64/" "" true;
                    Member "chromedriver-linux64/LICENSE.chromedriver" "license" true]
                   (archive_written "128.0.1" licence_archive
                      (add_out (FoundUrl (JStr "https://cft.test/128.0.1/linux64.zip"))
                         (add_out (PlatformName "linux64") stale_world)))))).
  - vm_compute. reflexivity.
  - reflexivity.
  - eexists _, _. repeat split.
  - vm_compute. reflexivity.
  - vm_compute. reflexivity.
  - left. reflexivity.
Defined.

(* ===================================================================== *)
(** ** The lookup does not look at the disk *)
(* ===================================================================== *)

Section Blind.

Context {A B : Type}.

Lemma same_server_refl w : same_server w w.
Proof. split; reflexivity. Qed.

Lemma blind_ret (a : A) : disk_blind (ret a).
Proof. intros w w2 H. split; [reflexivity | exact H]. Qed.

Lemma blind_lift (x : result A) : disk_blind (lift x).
Proof. intros w w2 H. split; [reflexivity | exact H]. Qed.

Lemma blind_raise e : disk_blind (@raise A e).
Proof. intros w w2 H. split; [reflexivity | exact H]. Qed.

Lemma blind_bind (m : M A) (k : A -> M B) :
  disk_blind m -> (forall a, disk_blind (k a)) -> disk_blind (bind m k).
Proof.
  intros Hm Hk w w2 H. unfold bind.
  destruct (Hm w w2 H) as [Hr Hs].
  destruct (m w) as [[a|e] w1], (m w2) as [[a2|e2] w3]; cbn [fst snd] in *;
    try discriminate.
  - injection Hr as ->. exact (Hk a w1 w3 Hs).
  - injection Hr as ->. split; [reflexivity | exact Hs].
Qed.

Lemma blind_try (body : M A) handler :
  disk_blind body -> (forall e, disk_blind (handler e)) ->
  disk_blind (try_except body handler).
Proof.
  intros Hb Hh w w2 H. unfold try_except.
  destruct (Hb w w2 H) as [Hr Hs].
  destruct (body w) as [[a|e] w1], (body w2) as [[a2|e2] w3]; cbn [fst snd] in *;
    try discriminate.
  - injection Hr as ->. split; [reflexivity | exact Hs].
  - injection Hr as ->. exact (Hh e w1 w3 Hs).
Qed.

End Blind.

Lemma blind_print r : disk_blind (print r).
Proof. intros w w2 [Hs Hh]. split; [reflexivity|]. split; assumption. Qed.

Lemma blind_requests_get u : disk_blind (requests_get u).
Proof.
  intros w w2 [Hs Hh]. unfold requests_get. rewrite Hh.
  destruct u; try (split; [reflexivity | split; assumption]).
  destruct (http w s); (split; [reflexivity | split; assumption]).
Qed.

Lemma blind_raise_for_status r : disk_blind (raise_for_status r).
Proof.
  unfold raise_for_status.
  destruct ((400 <=? status_code r) && (status_code r <? 600));
    [apply blind_raise | apply blind_ret].
Qed.

Lemma blind_response_json r : disk_blind (response_json r).
Proof. unfold response_json. destruct (content r); (apply blind_raise || apply blind_ret). Qed.

Lemma blind_scan_downloads tag v downloads : disk_blind (scan_downloads tag v downloads).
Proof.
  induction downloads as [|d downloads IH]; cbn [scan_downloads].
  - apply blind_ret.
  - apply blind_bind; [apply blind_lift|]. intros platform.
    apply blind_bind; [apply blind_lift|]. intros [|]; [|exact IH].
    apply blind_bind; [apply blind_lift|]. intros url.
    apply blind_bind; [apply blind_print|]. intros _. apply blind_ret.
Qed.

Lemma blind_scan_versions prefix tag versions : disk_blind (scan_versions prefix tag versions).
Proof.
  induction versions as [|j versions IH]; cbn [scan_versions].
  - apply blind_ret.
  - apply blind_bind; [apply blind_lift|]. intros value.
    apply blind_bind; [apply blind_lift|]. intros version.
    destruct (startswith version prefix); [|exact IH].
    apply blind_bind; [apply blind_lift|]. intros downloads.
    apply blind_bind; [apply blind_lift|]. intros drivers.
    apply blind_bind; [apply blind_lift|]. intros items.
    apply blind_bind; [apply blind_scan_downloads|]. intros [hit|]; [apply blind_ret | exact IH].
Qed.

Lemma blind_fetch prefix : disk_blind (fetch_closest_chromedriver_url prefix).
Proof.
  unfold fetch_closest_chromedriver_url.
  apply blind_bind.
  - apply blind_try.
    + unfold lookup_body.
      apply blind_bind; [apply blind_requests_get|]. intros response.
      apply blind_bind; [apply blind_raise_for_status|]. intros _.
      apply blind_bind; [apply blind_response_json|]. intros data.
      apply blind_bind.
      { intros w w2 [Hs Hh]. unfold ask. cbn [fst snd]. rewrite Hs.
        split; [reflexivity | split; assumption]. }
      intros system_name.
      apply blind_bind; [apply blind_lift|]. intros platform_name.
      apply blind_bind; [apply blind_print|]. intros _.
      apply blind_bind; [apply blind_lift|]. intros versions.
      apply blind_bind; [apply blind_lift|]. intros items.
      apply blind_bind; [apply blind_scan_versions|]. intros [hit|]; [apply blind_ret|].
      apply blind_bind; [apply blind_print|]. intros _. apply blind_ret.
    + intros e. destruct e; cbn [lookup_handler];
        (apply blind_bind; [apply blind_print | intros _; apply blind_ret]).
  - intros [[u v]|]; apply blind_ret.
Qed.

(** X12.  The lookup neither reads nor writes the disk: on two hosts with
    the same operating system and the same network it returns the same
    pair, whatever is on their disks and whatever was printed before, and it
    leaves the disk as it was. *)
Theorem lookup_ignores_disk prefix w w2 :
  system w2 = system w ->
  http w2 = http w ->
  fst (fetch_closest_chromedriver_url prefix w2) = fst (fetch_closest_chromedriver_url prefix w) /\
  fs (snd (fetch_closest_chromedriver_url prefix w)) = fs w /\
  fs (snd (fetch_closest_chromedriver_url prefix w2)) = fs w2.
Proof.
  intros Hs Hh. split; [apply (blind_fetch prefix w w2); split; assumption|].
  split.
  - destruct (fetch_closest_chromedriver_url prefix w) as [r w'] eqn:E.
    exact (proj2 (fetch_frame _ _ _ _ E)).
  - destruct (fetch_closest_chromedriver_url prefix w2) as [r w'] eqn:E.
    exact (proj2 (fetch_frame _ _ _ _ E)).
Qed.

Lemma lookup_ignores_disk_witness :
  fst (fetch_closest_chromedriver_url "128" stale_world)
    = fst (fetch_closest_chromedriver_url "128" licence_world) /\
  fs (snd (fetch_closest_chromedriver_url "128" licence_world)) = fs licence_world /\
  fs (snd (fetch_closest_chromedriver_url "128" stale_world)) = fs stale_world.
Proof.
  apply (lookup_ignores_disk "128" licence_world stale_world); reflexivity.
Defined.

(* ===================================================================== *)
(** ** Extracting again *)
(* ===================================================================== *)

(** A walk reads the listing only. *)
Lemma walk_listing n : forall top, walk_node top (listing n) = walk_node top n.
Proof.
  induction n as [data|entries IH] using node_tree_ind; intros top; [reflexivity|].
  cbn [listing walk_node]. f_equal.
  - f_equal; [f_equal|].
    + unfold dir_names. clear IH. induction entries as [|[k [d|sub]] entries IHe];
        cbn; [reflexivity|..]; now rewrite IHe.
    + unfold file_names. clear IH. induction entries as [|[k [d|sub]] entries IHe];
        cbn; [reflexivity|..]; now rewrite IHe.
  - induction IH as [|[k child] entries Hchild _ IHe]; [reflexivity|].
    cbn [map flat_map fst snd]. cbn [snd] in Hchild. now rewrite Hchild, IHe.
Qed.

Lemma Forall_insert_ranked {A} (rank : A -> nat) (P : A -> Prop) x l :
  P x -> Forall P l -> Forall P (insert_ranked rank x l).
Proof.
  intros Hx. induction 1 as [|y l Hy Hl IH]; cbn [insert_ranked].
  - now constructor.
  - destruct (rank x <=? rank y)%nat; repeat constructor; assumption.
Qed.

Lemma Forall_sort_ranked {A} (rank : A -> nat) (P : A -> Prop) l :
  Forall P l -> Forall P (sort_ranked rank l).
Proof.
  induction 1 as [|x l Hx Hl IH]; [constructor|].
  cbn [sort_ranked fold_right]. now apply Forall_insert_ranked.
Qed.

(** The listing of a tree decides the order it is listed in. *)
Lemma listing_scanned order n :
  forall top, listing (scanned order top n) = scanned order top (listing n).
Proof.
  induction n as [data|entries IH] using node_tree_ind; intros top; [reflexivity|].
  cbn [listing scanned]. f_equal.
  rewrite (sort_ranked_map
             (fun e => (fst e, scanned order (path_join top (fst e)) (snd e)))
             (fun e => order top (fst e)) entries).
  rewrite (sort_ranked_map
             (fun e => (fst e, scanned order (path_join top (fst e)) (snd e)))
             (fun e => order top (fst e))
             (map (fun e => (fst e, listing (snd e))) entries)).
  cbn [fst].
  rewrite (sort_ranked_map
             (fun e : string * node => (fst e, listing (snd e)))
             (fun e => order top (fst e)) entries).
  cbn [fst snd].
  apply (Forall_sort_ranked (fun e => order top (fst e))) in IH.
  induction IH as [|[name child] sorted Hchild _ IHsorted]; [reflexivity|].
  cbn [map fst snd] in *. now rewrite Hchild, IHsorted.
Qed.

(** Two trees with one listing are walked alike. *)
Lemma walk_scanned_listing order top n n' :
  listing n' = listing n ->
  walk_node top (scanned order top n') = walk_node top (scanned order top n).
Proof.
  intros H.
  rewrite <- (walk_listing (scanned order top n')), <- (walk_listing (scanned order top n)).
  now rewrite !listing_scanned, H.
Qed.

Lemma alter_entry_named name f entries entries' :
  alter_entry name f entries = Some entries' ->
  exists n', f (entry_named name entries) = Some n' /\ entry_named name entries' = Some n'.
Proof.
  revert entries'. induction entries as [|[k n] entries IH]; intros entries' Ha;
    cbn [alter_entry entry_named] in *.
  - destruct (f None) as [n'|] eqn:E; [|discriminate]. injection Ha as <-.
    exists n'. cbn [entry_named]. now rewrite String.eqb_refl.
  - destruct (String.eqb k name) eqn:Ek.
    + destruct (f (Some n)) as [n'|] eqn:E; [|discriminate]. injection Ha as <-.
      exists n'. cbn [entry_named]. now rewrite Ek.
    + destruct (alter_entry name f entries) as [rest'|] eqn:E; [|discriminate].
      injection Ha as <-. destruct (IH rest' eq_refl) as (n' & Hf & Hn).
      exists n'. cbn [entry_named]. now rewrite Ek.
Qed.

Lemma alter_entry_other name f entries entries' other :
  alter_entry name f entries = Some entries' ->
  other <> name ->
  entry_named other entries' = entry_named other entries.
Proof.
  intros Ha Hne. revert entries' Ha.
  induction entries as [|[k n] entries IH]; intros entries' Ha; cbn [alter_entry] in Ha.
  - destruct (f None) as [n'|]; [|discriminate]. injection Ha as <-.
    cbn [entry_named]. apply String.eqb_neq in Hne. rewrite String.eqb_sym in Hne.
    now rewrite Hne.
  - destruct (String.eqb k name) eqn:Ek.
    + apply String.eqb_eq in Ek. subst k.
      destruct (f (Some n)) as [n'|]; [|discriminate]. injection Ha as <-.
      cbn [entry_named]. apply String.eqb_neq in Hne. rewrite String.eqb_sym in Hne.
      now rewrite Hne.
    + destruct (alter_entry name f entries) as [rest'|] eqn:E; [|discriminate].
      injection Ha as <-. cbn [entry_named]. now rewrite (IH rest' eq_refl).
Qed.

Lemma alter_entry_listing name f entries child child' :
  entry_named name entries = Some child ->
  f (Some child) = Some child' ->
  listing child' = listing child ->
  exists entries',
    alter_entry name f entries = Some entries' /\
    listing (Dir entries') = listing (Dir entries).
Proof.
  intros Hn Hf Hl. induction entries as [|[k n] entries IH]; [discriminate|].
  cbn [entry_named alter_entry] in *. destruct (String.eqb k name).
  - injection Hn as ->. rewrite Hf. eexists. split; [reflexivity|].
    cbn [listing map fst snd]. now rewrite Hl.
  - destruct (IH Hn) as (rest' & -> & Hrest). eexists. split; [reflexivity|].
    cbn [listing map fst snd] in *. now injection Hrest as ->.
Qed.

(** After a put, the leaf is there. *)
Lemma put_has_leaf parts l :
  forall target n',
    put parts l target = Some n' -> has_leaf parts (is_file_leaf l) (Some n') = true.
Proof.
  induction parts as [|part parts IH]; intros target n' Hput; cbn [put] in Hput.
  - destruct l, target as [[d|entries]|]; try discriminate; now injection Hput as <-.
  - destruct target as [[d|entries]|]; [discriminate|..].
    + destruct (alter_entry part (put parts l) entries) as [entries'|] eqn:E; [|discriminate].
      injection Hput as <-. cbn [has_leaf].
      destruct (alter_entry_named _ _ _ _ E) as (n' & Hf & ->). exact (IH _ _ Hf).
    + destruct (put parts l None) as [n|] eqn:E; [|discriminate].
      injection Hput as <-. cbn [has_leaf entry_named]. rewrite String.eqb_refl.
      exact (IH _ _ E).
Qed.

(** A put keeps the leaves that are there. *)
Lemma put_keeps_leaf parts2 l2 :
  forall parts file target n',
    put parts2 l2 target = Some n' ->
    has_leaf parts file target = true ->
    has_leaf parts file (Some n') = true.
Proof.
  induction parts2 as [|part2 parts2 IH]; intros parts file target n' Hput Hl;
    cbn [put] in Hput.
  - destruct target as [[d|entries]|]; [| |destruct parts; discriminate].
    + destruct l2; [discriminate|]. injection Hput as <-.
      destruct parts; [exact Hl | discriminate].
    + destruct l2; [|discriminate]. now injection Hput as <-.
  - destruct target as [[d|entries]|]; [discriminate| |destruct parts; discriminate].
    destruct (alter_entry part2 (put parts2 l2) entries) as [entries'|] eqn:E; [|discriminate].
    injection Hput as <-. destruct parts as [|part parts]; [exact Hl|].
    cbn [has_leaf] in *.
    destruct (String.eqb part part2) eqn:Ep.
    + apply String.eqb_eq in Ep. subst part.
      destruct (alter_entry_named _ _ _ _ E) as (n' & Hf & ->).
      exact (IH _ _ _ _ Hf Hl).
    + apply String.eqb_neq in Ep. now rewrite (alter_entry_other _ _ _ _ _ E Ep).
Qed.

(** Putting a leaf where it is changes no listing. *)
Lemma put_again parts l :
  forall target,
    has_leaf parts (is_file_leaf l) target = true ->
    exists n n',
      target = Some n /\ put parts l target = Some n' /\ listing n' = listing n.
Proof.
  induction parts as [|part parts IH]; intros target Hl.
  - destruct target as [[d|entries]|]; [| |discriminate]; destruct l; try discriminate;
      eexists _, _; repeat split.
  - destruct target as [[d|entries]|]; try discriminate. cbn [has_leaf] in Hl.
    destruct (IH _ Hl) as (child & child' & Hn & Hput & Hlist).
    rewrite Hn in Hput.
    destruct (alter_entry_listing part (put parts l) entries child child' Hn Hput Hlist)
      as (entries' & Ha & Hl').
    exists (Dir entries), (Dir entries'). cbn [put]. rewrite Ha. repeat split. exact Hl'.
Qed.

Lemma extract_member_keeps_leaf path m w r w' parts file :
  extract_member path m w = (r, w') ->
  has_leaf parts file (fs w !! path) = true ->
  has_leaf parts file (fs w' !! path) = true.
Proof.
  unfold extract_member. intros H Hl.
  destruct (String.eqb (filename m) ""); [injection H as <- <-; exact Hl|].
  destruct (is_dir m); destruct (put _ _ _) as [n|] eqn:E; injection H as <- <-;
    try exact Hl; cbn [fs set_fs]; rewrite lookup_insert_eq;
    exact (put_keeps_leaf _ _ _ _ _ _ E Hl).
Qed.

Lemma extract_members_keeps_leaf path members parts file :
  forall w r w',
    extract_members path members w = (r, w') ->
    has_leaf parts file (fs w !! path) = true ->
    has_leaf parts file (fs w' !! path) = true.
Proof.
  induction members as [|m members IH]; intros w r w' H Hl.
  - injection H as <- <-. exact Hl.
  - cbn [extract_members] in H. unfold bind in H.
    destruct (extract_member path m w) as [[[]|e] w1] eqn:E.
    + exact (IH _ _ _ H (extract_member_keeps_leaf _ _ _ _ _ _ _ E Hl)).
    + injection H as <- <-. exact (extract_member_keeps_leaf _ _ _ _ _ _ _ E Hl).
Qed.

(** What an extraction without error leaves: every member in place. *)
Lemma extract_members_done path members :
  forall w w',
    extract_members path members w = (Ok tt, w') ->
    forallb (member_extracted (fs w' !! path)) members = true.
Proof.
  induction members as [|m members IH]; intros w w' H; [reflexivity|].
  cbn [extract_members] in H. unfold bind in H.
  destruct (extract_member path m w) as [[[]|e] w1] eqn:E; [|discriminate].
  cbn [forallb]. rewrite (IH _ _ H), andb_true_r.
  unfold member_extracted.
  assert (Hm : negb (String.eqb (filename m) "") && (is_dir m || crc_ok m) = true /\
               has_leaf (arcname (filename m)) (negb (is_dir m)) (fs w1 !! path) = true).
  { unfold extract_member in E.
    destruct (String.eqb (filename m) ""); [discriminate|].
    destruct (is_dir m); destruct (put _ _ _) as [n|] eqn:Ep; try discriminate.
    - injection E as <-. cbn [fs set_fs]. rewrite lookup_insert_eq.
      split; [reflexivity | exact (put_has_leaf _ _ _ _ Ep)].
    - destruct (crc_ok m); [|discriminate]. injection E as <-.
      cbn [fs set_fs]. rewrite lookup_insert_eq.
      split; [reflexivity | exact (put_has_leaf _ _ _ _ Ep)]. }
  destruct Hm as [-> Hl]. exact (extract_members_keeps_leaf _ _ _ _ _ _ _ H Hl).
Qed.

(** Extracting members that are in place raises nothing and changes no
    listing. *)
Lemma extract_members_again path members :
  forall w,
    forallb (member_extracted (fs w !! path)) members = true ->
    exists w',
      extract_members path members w = (Ok tt, w') /\
      listing <$> (fs w' !! path) = listing <$> (fs w !! path).
Proof.
  induction members as [|m members IH]; intros w Hall.
  - exists w. split; reflexivity.
  - cbn [forallb] in Hall. apply andb_prop in Hall as [Hm Hrest].
    unfold member_extracted in Hm. apply andb_prop in Hm as [Hm Hl].
    apply andb_prop in Hm as [Hname Hcrc]. apply negb_true_iff in Hname.
    assert (Hstep : exists n n',
              fs w !! path = Some n /\ listing n' = listing n /\
              extract_member path m w = (Ok tt, set_fs (<[path := n']> (fs w)) w)).
    { unfold extract_member. rewrite Hname.
      destruct (is_dir m) eqn:Hd; cbn [negb orb] in *.
      - destruct (put_again (arcname (filename m)) LeafDir _ Hl) as (n & n' & Hn & Hp & Hln).
        exists n, n'. rewrite Hp. repeat split; assumption.
      - destruct (put_again (arcname (filename m)) (LeafFile (Raw (payload m))) _ Hl)
          as (n & n' & Hn & Hp & Hln).
        exists n, n'. rewrite Hp, Hcrc. repeat split; assumption. }
    destruct Hstep as (n & n' & Hn & Hln & Hext).
    assert (Hrest' : forallb (member_extracted
                                (fs (set_fs (<[path := n']> (fs w)) w) !! path)) members = true).
    { apply forallb_forall. intros m' Hin. rewrite forallb_forall in Hrest.
      specialize (Hrest m' Hin). unfold member_extracted in Hrest |- *.
      apply andb_prop in Hrest as [Hok Hl']. rewrite Hok. cbn [andb].
      exact (extract_member_keeps_leaf _ _ _ _ _ _ _ Hext Hl'). }
    destruct (IH _ Hrest') as (w' & Hrun & Hlist).
    exists w'. cbn [extract_members]. unfold bind. rewrite Hext. split; [exact Hrun|].
    rewrite Hlist. cbn [fs set_fs]. rewrite lookup_insert_eq, Hn. cbn. now rewrite Hln.
Qed.

(** The body of the second [try] when it returns a driver, taken apart. *)
Lemma provision_body_success u v zip_path extract_dir w r w' :
  provision_body u v zip_path extract_dir w = (Ok r, w') ->
  r <> "" ->
  exists members W w3 tree,
    archive_served w u (ZipArchive members) /\
    open_error w zip_path = None /\
    fs W = <[zip_path := File (ZipArchive members)]> (fs w) /\
    extract_members extract_dir members W = (Ok tt, w3) /\
    same_host w w3 /\
    fs w3 !! extract_dir = Some tree /\
    find_driver (walk_node extract_dir (scanned (scandir w) extract_dir tree)) = Some r /\
    w' = add_out (DriverPath r) (set_fs (delete zip_path (fs w3)) w3).
Proof.
  unfold provision_body. unfold bind at 1, requests_get.
  destruct u as [| | | |s| |]; try discriminate.
  destruct (http w s) as [err|response] eqn:Hget; [discriminate|].
  unfold bind at 1, raise_for_status.
  destruct ((400 <=? status_code response) && (status_code response <? 600)) eqn:Hstatus;
    [discriminate|].
  unfold ret at 1, bind at 1.
  destruct (write_file zip_path (content response) w) as [[[]|e] wc] eqn:Ew; [|discriminate].
  rewrite !bind_print. unfold bind at 1.
  destruct (extractall zip_path extract_dir _) as [[[]|e] wd] eqn:Ex; [|discriminate].
  unfold bind at 1, os_walk. intros H Hr.
  assert (Hwc : open_error w zip_path = None /\
                wc = set_fs (<[zip_path := File (content response)]> (fs w)) w).
  { unfold write_file in Ew. destruct (open_error w zip_path);
      [discriminate | now injection Ew]. }
  destruct Hwc as [Hopen Hwc].
  unfold extractall in Ex. rewrite Hwc in Ex. cbn [fs add_out set_fs] in Ex.
  rewrite lookup_insert_eq in Ex.
  destruct (content response) as [bytes|value|members] eqn:Hc; try discriminate.
  destruct (within_extract_members _ _ _ _ _ Ex) as [Hhost _].
  assert (Ho : scandir wd = scandir w) by now destruct Hhost as (_ & _ & _ & Ho).
  rewrite Ho in H.
  destruct (fs wd !! extract_dir) as [tree|] eqn:Et.
  - destruct (find_driver _) as [driver_file|] eqn:Ed.
    + unfold bind at 1, os_remove in H.
      destruct (fs wd !! zip_path) as [[data|entries]|]; try discriminate.
      rewrite bind_print in H. injection H as <- <-.
      exists members,
        (add_out (Extracting v)
           (add_out (Downloaded v)
              (set_fs (<[zip_path := File (ZipArchive members)]> (fs w)) w))),
        wd, tree.
      split.
      { exists s, response. repeat split; assumption. }
      split; [exact Hopen|]. split; [reflexivity|].
      split; [exact Ex|]. split; [exact Hhost|]. split; [exact Et|].
      split; [exact Ed | reflexivity].
    + rewrite bind_print in H. injection H as <- _. now destruct Hr.
  - cbn [find_driver] in H. rewrite bind_print in H. injection H as <- _. now destruct Hr.
Qed.

(** A tree in which the search finds a file is a directory. *)
Lemma found_in_directory order top tree r :
  find_driver (walk_node top (scanned order top tree)) = Some r ->
  is_directory (Some tree) = true.
Proof. destruct tree; [discriminate | reflexivity]. Qed.

(** X13.  Running the driver update again after it returned a driver
    returns the same driver: the lookup resolves the same version, the
    archive is fetched and extracted over what the first run left, and the
    walk finds the same file. *)
Theorem rerun_returns_same_driver prefix w r w' :
  download_and_update_chromedriver prefix w = (Ok r, w') ->
  r <> "" ->
  fst (download_and_update_chromedriver prefix w') = Ok r.
Proof.
  intros H Hr.
  destruct (download_cases _ _ _ _ H)
    as [(u & av & w1 & _ & _ & -> & _)
       | (u & v & w1 & Hf & Hu & Hp & [(e & w2 & line & _ & -> & _) | Hbody])];
    try now destruct Hr.
  destruct (provision_body_success _ _ _ _ _ _ _ Hbody Hr)
    as (members & W & w3 & tree & Hserved & Hopen & HW & Hext & Hhost3 & Htree & Hfound & ->).
  destruct (fetch_frame _ _ _ _ Hf) as [(Hs1 & Hh1 & Hd1 & Ho1) Hfs1].
  destruct Hhost3 as (Hs3 & Hh3 & Hd3 & Ho3).
  cbn [system http script_dir scandir fs add_out] in Hs3, Hh3, Hd3, Ho3, HW, Hfound.
  rewrite (open_error_same w (add_out (Downloading v) w1) _ Hd1 Hfs1) in Hopen.
  rewrite Hfs1 in HW. rewrite Ho1 in Hfound.
  set (zip_path := zip_path_of (script_dir w) v) in *.
  set (extract_dir := extract_dir_of (script_dir w) v) in *.
  set (w' := add_out (DriverPath r) (set_fs (delete zip_path (fs w3)) w3)) in *.
  assert (Hsys : system w' = system w) by (cbn; congruence).
  assert (Hhttp : http w' = http w) by (cbn; congruence).
  assert (Hdir : script_dir w' = script_dir w) by (cbn; congruence).
  assert (Horder : scandir w' = scandir w) by (cbn; congruence).
  assert (Hframe : forall p, p <> zip_path -> p <> extract_dir -> fs w' !! p = fs w !! p).
  { intros p Hz He. cbn [fs add_out set_fs w']. rewrite lookup_delete_ne by congruence.
    destruct (within_extract_members _ _ _ _ _ Hext) as [_ Hout].
    rewrite Hout by congruence. rewrite HW. now rewrite lookup_insert_ne by congruence. }
  (* the second lookup *)
  destruct (blind_fetch prefix w w' (conj Hsys Hhttp)) as [Hsame _].
  rewrite Hf in Hsame. cbn [fst] in Hsame.
  destruct (fetch_closest_chromedriver_url prefix w') as [res w1'] eqn:Hf'.
  cbn [fst] in Hsame. subst res.
  (* the second download *)
  assert (Hserved' : archive_served w' u (ZipArchive members)).
  { destruct Hserved as (s & resp & -> & Hget & Hstatus & Hc).
    exists s, resp. cbn [http add_out] in Hget. rewrite Hh1 in Hget.
    rewrite Hhttp. repeat split; assumption. }
  assert (Htree' : fs w' !! extract_dir = Some tree).
  { cbn [fs add_out set_fs w'].
    rewrite lookup_delete_ne by apply zip_path_not_extract_dir. exact Htree. }
  assert (Hwritable : open_error w' (zip_path_of (script_dir w') v) = None).
  { rewrite Hdir. fold zip_path. revert Hopen. unfold open_error. rewrite Hdir.
    destruct (has_char _ zip_path); [discriminate|].
    destruct (String.eqb (dirname zip_path) (script_dir w)) eqn:Ehome; cbn [orb negb].
    - destruct (is_directory (fs w !! zip_path)); [discriminate|]. intros _.
      cbn [fs add_out set_fs w']. now rewrite lookup_delete_eq.
    - destruct (is_directory (fs w !! dirname zip_path)) eqn:Eparent; [|discriminate].
      cbn [negb].
      destruct (is_directory (fs w !! zip_path)) eqn:Ezip; [discriminate|]. intros _.
      assert (Hnz : dirname zip_path <> zip_path).
      { intros E. rewrite E in Eparent. congruence. }
      replace (is_directory (fs w' !! dirname zip_path)) with true.
      + cbn [negb]. cbn [fs add_out set_fs w']. now rewrite lookup_delete_eq.
      + symmetry.
        destruct (String.eqb (dirname zip_path) extract_dir) eqn:Ed.
        * apply String.eqb_eq in Ed. rewrite Ed, Htree'.
          exact (found_in_directory _ _ _ _ Hfound).
        * apply String.eqb_neq in Ed. now rewrite Hframe. }
  assert (Hbefore : fs (archive_written v (ZipArchive members) w1')
                      !! extract_dir_of (script_dir w') v = Some tree).
  { rewrite (archive_written_extract_dir prefix w' w1' u v _ Hf'), Hdir. exact Htree'. }
  pose proof (extract_members_done _ _ _ _ Hext) as Hdone. rewrite Htree in Hdone.
  rewrite <- Hbefore in Hdone. rewrite Hdir in Hdone.
  destruct (extract_members_again _ _ _ Hdone) as (w3' & Hext' & Hlist).
  rewrite <- Hdir in Hext', Hlist. rewrite Hbefore in Hlist.
  pose proof (extractall_written prefix w' w1' u v _ Hf' Hserved') as Hall.
  cbv iota in Hall. rewrite Hext' in Hall.
  destruct (download_extracted prefix w' w1' u v _ Hf' Hu Hserved' Hwritable w3' Hall)
    as [_ ->].
  destruct (fs w3' !! extract_dir_of (script_dir w') v) as [tree'|]; [|discriminate].
  cbn in Hlist. injection Hlist as Hlist.
  rewrite (walk_scanned_listing _ _ _ _ Hlist), Hdir, Horder. fold extract_dir.
  rewrite Hfound. reflexivity.
Qed.

Lemma rerun_returns_same_driver_witness :
  fst (download_and_update_chromedriver "128"
         (snd (download_and_update_chromedriver "128" example_world)))
    = Ok "/opt/tool/chromedriver_128.0.1/chromedriver".
Proof.
  apply (rerun_returns_same_driver "128" example_world
           "/opt/tool/chromedriver_128.0.1/chromedriver").
  - vm_compute. reflexivity.
  - discriminate.
Defined.

(* ===================================================================== *)
(** ** One archive and one directory per version *)
(* ===================================================================== *)

Lemma length_append a b :
  String.length (a +:+ b) = (String.length a + String.length b)%nat.
Proof.
  induction a as [|x a IH]; [reflexivity|].
  rewrite app_cons. cbn [String.length]. rewrite IH. reflexivity.
Qed.

Lemma app_inj_r a b c : a +:+ c = b +:+ c -> a = b.
Proof.
  revert b. induction a as [|x a IH]; intros b H.
  - destruct b as [|y b]; [reflexivity|].
    apply (f_equal String.length) in H. rewrite !length_append in H.
    cbn [String.length] in H. lia.
  - destruct b as [|y b].
    + apply (f_equal String.length) in H. rewrite !length_append in H.
      cbn [String.length] in H. lia.
    + rewrite !app_cons in H. injection H as -> H. f_equal. exact (IH _ H).
Qed.

(** X14.  Two versions never share a path: the archive path and the
    extraction directory determine the version they were built from. *)
Theorem paths_distinct_per_version base v v' :
  (zip_path_of base v = zip_path_of base v' <-> v = v') /\
  (extract_dir_of base v = extract_dir_of base v' <-> v = v').
Proof.
  unfold zip_path_of, extract_dir_of. split; split; try (intros ->; reflexivity); intros H.
  - apply path_join_inj in H; [|reflexivity..].
    apply app_inj_l in H. exact (app_inj_r _ _ _ H).
  - apply path_join_inj in H; [|reflexivity..].
    exact (app_inj_l _ _ _ H).
Qed.

(* ===================================================================== *)
(** ** Where the archive and the extracted files go *)
(* ===================================================================== *)













(* ===================================================================== *)
(** ** What the listing order does not decide *)
(* ===================================================================== *)

(** The search finds a file exactly when the tree holds one named with the
    driver prefix, in whatever order the directories are listed. *)
Lemma find_driver_scanned order top tree :
  find_driver (walk_node top (scanned order top tree)) = None <-> no_driver tree = true.
Proof.
  rewrite <- (no_driver_scanned order tree top). split.
  - intros H. exact (walk_clean_tree _ _ (find_driver_finds _ H)).
  - intros H. apply find_driver_none. intros rf. now apply walk_clean.
Qed.

(** X15.  The order in which the file system lists the directories decides
    which driver file is returned, never whether one is: once the archive is
    written and extracted without error, the driver update returns the empty
    string exactly when no file named with the driver prefix is in the
    extraction directory, and removes the archive exactly when one is. *)
Theorem listing_order_never_hides_a_driver prefix w w1 u v members w3 :
  fetch_closest_chromedriver_url prefix w = (Ok (u, Some v), w1) ->
  truthy u = true ->
  archive_served w u (ZipArchive members) ->
  open_error w (zip_path_of (script_dir w) v) = None ->
  extract_members (extract_dir_of (script_dir w) v) members
    (archive_written v (ZipArchive members) w1) = (Ok tt, w3) ->
  (fst (download_and_update_chromedriver prefix w) = Ok "" <->
   target_has_driver (fs w3 !! extract_dir_of (script_dir w) v) = false) /\
  (fs (snd (download_and_update_chromedriver prefix w)) !! zip_path_of (script_dir w) v = None
   <-> target_has_driver (fs w3 !! extract_dir_of (script_dir w) v) = true).
Proof.
  intros Hres Hu Hserved Hopen Hext.
  pose proof (extractall_written prefix w w1 u v (ZipArchive members) Hres Hserved) as Hall.
  cbv iota in Hall. rewrite Hext in Hall.
  destruct (download_extracted prefix w w1 u v _ Hres Hu Hserved Hopen w3 Hall) as [Hzip ->].
  destruct (fs w3 !! extract_dir_of (script_dir w) v) as [tree|] eqn:Et; cbn [target_has_driver].
  - destruct (find_driver _) as [driver_file|] eqn:Ed.
    + assert (Hdirty : no_driver tree = false).
      { destruct (no_driver tree) eqn:Hn; [|reflexivity].
        rewrite (proj2 (find_driver_scanned _ _ _) Hn) in Ed. discriminate. }
      rewrite Hdirty. cbn [negb fst snd fs add_out set_fs]. rewrite lookup_delete_eq.
      pose proof (find_driver_nonempty _ _ Ed) as Hne.
      split; split; intros H; try reflexivity; try discriminate.
      injection H as ->. now destruct Hne.
    + apply (proj1 (find_driver_scanned _ _ _)) in Ed. rewrite Ed.
      cbn [negb fst snd fs add_out]. rewrite Hzip.
      split; split; intros H; try reflexivity; discriminate.
  - cbn [find_driver fst snd fs add_out]. rewrite Hzip.
    split; split; intros H; try reflexivity; discriminate.
Qed.

Lemma listing_order_never_hides_a_driver_witness :
  fst (download_and_update_chromedriver "128" crowded_world) <> Ok "" /\
  fs (snd (download_and_update_chromedriver "128" crowded_world))
    !! zip_path_of (script_dir crowded_world) "128.0.1" = None.
Proof.
  destruct (listing_order_never_hides_a_driver "128" crowded_world
              (add_out (FoundUrl (JStr "https://cft.test/128.0.1/linux64.zip"))
                 (add_out (PlatformName "linux64") crowded_world))
              (JStr "https://cft.test/128.0.1/linux64.zip") "128.0.1"
              [Member "LICENSE.chromedriver" "license" true;
               Member "a/chromedriver" "driver a" true;
               Member "b/chromedriver_x" "driver x" true;
               Member "b/chromedriver" "driver b" true]
              (snd (extract_members "/opt/tool/chromedriver_128.0.1"
                      [Member "LICENSE.chromedriver" "license" true;
                       Member "a/chromedriver" "driver a" true;
                       Member "b/chromedriver_x" "driver x" true;
                       Member "b/chromedriver" "driver b" true]
                      (archive_written "128.0.1" crowded_archive
                         (add_out (FoundUrl (JStr "https://cft.test/128.0.1/linux64.zip"))
                            (add_out (PlatformName "linux64") crowded_world))))))
    as [Hempty Hgone].
  - vm_compute. reflexivity.
  - reflexivity.
  - eexists _, _. repeat split.
  - vm_compute. reflexivity.
  - vm_compute. reflexivity.
  - split.
    + intros H. apply Hempty in H. vm_compute in H. discriminate.
    + apply Hgone. vm_compute. reflexivity.
Defined.
